(** * PSForever password reset tool: a shallow embedding of [reset_password.py]

    The script is an interactive, single-operator program: it connects to a
    PostgreSQL server, looks an account up by user name, collects and
    confirms a new password, derives two bcrypt hashes and writes both to the
    account row in one transaction.

    Modelling conventions.
    - A Python [str] is a list of Unicode code points ([N]); [len] is the
      list length.  [bytes] is a list of [Byte.byte].
    - Effects are threaded through a state-and-exception monad [M] over a
      [world]: the operator's pending terminal input, the server's committed
      [account] table, the session's uncommitted view of it, the audit log
      file and a few counters that index the environment's oracles.
    - What the script calls but does not define (bcrypt, SHA-256, the
      database server, [str.lower], SQL [LOWER], the clock, [os.urandom])
      is collected in an [env] record; theorems quantify over it.
    - The operator's input is a finite list of events; reading past its end
      is end-of-file ([EOFError]), and an interrupt at a prompt is
      [KeyboardInterrupt].
    - A statement or a commit may fail ([db_fault]); a failing statement may
      leave any part of its work in the uncommitted view of the session.
      [conn.rollback()] and [conn.close()] are taken to complete.
    - [main] and [run] start from the parsed command line ([args]);
      [argparse] itself, which ends the process with status 2 on a
      malformed command line, is not modelled.
    - Text printed to the terminal is not modelled. *)

From Stdlib Require Import List NArith ZArith Bool Lia Arith.
From Stdlib Require Import Ascii String DecimalString Permutation.
Import ListNotations.

(* ================================================================== *)
(** ** Strings and bytes *)
(* ================================================================== *)

Local Open Scope N_scope.

(** A Python [str]. *)
Definition str : Type := list N.

(** A Python [bytes] object. *)
Definition bytes : Type := list Byte.byte.

(** An ASCII literal of the source, as a [str]. *)
Definition lit (s : string) : str := map N_of_ascii (list_ascii_of_string s).

(** [a == b] on [str]. *)
Fixpoint str_eqb (a b : str) : bool :=
  match a, b with
  | [], [] => true
  | x :: a', y :: b' => N.eqb x y && str_eqb a' b'
  | _, _ => false
  end.

(** The byte whose value is [n mod 256]. *)
Definition byte_of_N (n : N) : Byte.byte :=
  match Byte.of_N (n mod 256) with
  | Some b => b
  | None => Byte.x00
  end.

(** An ASCII literal of the source, as [bytes] (the [b"..."] literals). *)
Definition blit (s : string) : bytes := map byte_of_ascii (list_ascii_of_string s).

(** [pat in s]: [pat] occurs as a contiguous slice of [s]. *)
Fixpoint starts_with (pat s : str) : bool :=
  match pat, s with
  | [], _ => true
  | p :: pat', c :: s' => N.eqb p c && starts_with pat' s'
  | _ :: _, [] => false
  end.

Fixpoint contains (pat s : str) : bool :=
  starts_with pat s ||
  match s with
  | [] => false
  | _ :: s' => contains pat s'
  end.

(** Code points for which [str.isspace] is true; [str.strip()] removes
    them from both ends. *)
Definition is_space (c : N) : bool :=
  ((9 <=? c) && (c <=? 13)) || ((28 <=? c) && (c <=? 32))
  || (c =? 133) || (c =? 160) || (c =? 5760)
  || ((8192 <=? c) && (c <=? 8202))
  || (c =? 8232) || (c =? 8233) || (c =? 8239) || (c =? 8287) || (c =? 12288).

Fixpoint lstrip (s : str) : str :=
  match s with
  | [] => []
  | c :: s' => if is_space c then lstrip s' else s
  end.

Definition rstrip (s : str) : str := List.rev (lstrip (List.rev s)).

Definition strip (s : str) : str := rstrip (lstrip s).

(** [s[0]] compared with an ASCII character, guarded by [s] being
    non-empty: the tests [confirm[0] == 'n'] and [confirm[0] != 'y'] are
    only ever evaluated behind [confirm and ...] / [not confirm or ...]. *)
Definition first_is (ch : string) (s : str) : bool :=
  match s, lit ch with
  | c :: _, k :: _ => N.eqb c k
  | _, _ => false
  end.

(** *** UTF-8 *)

(** [chr(c).encode('utf-8')]; lone surrogates raise [UnicodeEncodeError]. *)
Definition encode_utf8_char (c : N) : option bytes :=
  if c <? 0x80 then Some [byte_of_N c]
  else if c <? 0x800 then
    Some [byte_of_N (N.lor 0xC0 (N.shiftr c 6));
          byte_of_N (N.lor 0x80 (N.land c 0x3F))]
  else if c <? 0x10000 then
    if (0xD800 <=? c) && (c <? 0xE000) then None
    else
      Some [byte_of_N (N.lor 0xE0 (N.shiftr c 12));
            byte_of_N (N.lor 0x80 (N.land (N.shiftr c 6) 0x3F));
            byte_of_N (N.lor 0x80 (N.land c 0x3F))]
  else if c <? 0x110000 then
    Some [byte_of_N (N.lor 0xF0 (N.shiftr c 18));
          byte_of_N (N.lor 0x80 (N.land (N.shiftr c 12) 0x3F));
          byte_of_N (N.lor 0x80 (N.land (N.shiftr c 6) 0x3F));
          byte_of_N (N.lor 0x80 (N.land c 0x3F))]
  else None.

(** [s.encode('utf-8')]; [None] stands for [UnicodeEncodeError]. *)
Fixpoint encode_utf8 (s : str) : option bytes :=
  match s with
  | [] => Some []
  | c :: s' =>
      match encode_utf8_char c, encode_utf8 s' with
      | Some bc, Some bs => Some (bc ++ bs)
      | _, _ => None
      end
  end.

(** A code point that UTF-8 can encode: a Unicode scalar value. *)
Definition scalar (c : N) : bool :=
  (c <? 0x110000) && negb ((0xD800 <=? c) && (c <? 0xE000)).

(** Text without lone surrogates. *)
Definition well_formed (s : str) : bool := forallb scalar s.

Definition is_cont (b : N) : bool := (0x80 <=? b) && (b <? 0xC0).

Definition cont_bits (b : N) : N := N.land b 0x3F.

(** Strict UTF-8 decoding over byte values; [None] stands for
    [UnicodeDecodeError] (truncated or overlong sequences, surrogates,
    values past U+10FFFF, stray continuation bytes). *)
Fixpoint decode_utf8_N (bs : list N) : option str :=
  match bs with
  | [] => Some []
  | b0 :: r0 =>
      if b0 <? 0x80 then option_map (cons b0) (decode_utf8_N r0)
      else if b0 <? 0xC2 then None
      else if b0 <? 0xE0 then
        match r0 with
        | b1 :: r1 =>
            if is_cont b1 then
              option_map
                (cons (N.lor (N.shiftl (N.land b0 0x1F) 6) (cont_bits b1)))
                (decode_utf8_N r1)
            else None
        | _ => None
        end
      else if b0 <? 0xF0 then
        match r0 with
        | b1 :: b2 :: r2 =>
            if is_cont b1 && is_cont b2
               && negb ((b0 =? 0xE0) && (b1 <? 0xA0))
               && negb ((b0 =? 0xED) && (0xA0 <=? b1)) then
              option_map
                (cons (N.lor (N.shiftl (N.land b0 0x0F) 12)
                         (N.lor (N.shiftl (cont_bits b1) 6) (cont_bits b2))))
                (decode_utf8_N r2)
            else None
        | _ => None
        end
      else if b0 <? 0xF5 then
        match r0 with
        | b1 :: b2 :: b3 :: r3 =>
            if is_cont b1 && is_cont b2 && is_cont b3
               && negb ((b0 =? 0xF0) && (b1 <? 0x90))
               && negb ((b0 =? 0xF4) && (0x90 <=? b1)) then
              option_map
                (cons (N.lor (N.shiftl (N.land b0 0x07) 18)
                         (N.lor (N.shiftl (cont_bits b1) 12)
                            (N.lor (N.shiftl (cont_bits b2) 6) (cont_bits b3)))))
                (decode_utf8_N r3)
            else None
        | _ => None
        end
      else None
  end.

(** [b.decode('utf-8')]. *)
Definition decode_utf8 (b : bytes) : option str :=
  decode_utf8_N (map Byte.to_N b).

(** *** Hexadecimal digests and decimal numbers *)

(** One lowercase hexadecimal digit, as a code point. *)
Definition hex_digit (n : N) : N :=
  if n <? 10 then 48 + n else 87 + n.

(** The two-digit lowercase rendering of one byte. *)
Definition hex_byte (b : Byte.byte) : str :=
  [hex_digit (Byte.to_N b / 16); hex_digit (Byte.to_N b mod 16)].

(** What [.hexdigest()] makes of a digest. *)
Definition hexdigest (digest : bytes) : str := flat_map hex_byte digest.

Definition is_lower_hex (c : N) : bool :=
  ((48 <=? c) && (c <=? 57)) || ((97 <=? c) && (c <=? 102)).

(** The value of a lowercase hexadecimal digit. *)
Definition hex_value (c : N) : N :=
  if c <=? 57 then c - 48 else c - 87.

(** Reading a hexadecimal rendering back, two digits per byte. *)
Fixpoint unhex (s : str) : bytes :=
  match s with
  | hi :: lo :: s' => byte_of_N (16 * hex_value hi + hex_value lo) :: unhex s'
  | _ => []
  end.

(** [str(n)] for an [int]. *)
Definition str_of_int (n : Z) : str :=
  lit (NilZero.string_of_int (Z.to_int n)).

Local Close Scope N_scope.

(* ================================================================== *)
(** ** The world the script runs in *)
(* ================================================================== *)

(** A row of table [account]. *)
Record account : Type := {
  id : Z;
  username : str;
  inactive : bool;
  password : str;   (* launcher hash *)
  passhash : str    (* test-client hash *)
}.

(** The keyword arguments of one [psycopg2.connect] call. *)
Record conn_params : Type := {
  host : str;
  port : Z;
  user : str;
  conn_password : str;
  database : str
}.

(** How a [psycopg2.connect] call ends. *)
Inductive connect_result : Type :=
| Connected
| OperationalError (msg : str)
| OtherError.

(** What the operator does at a prompt; an exhausted input is end-of-file. *)
Inductive event : Type :=
| Line (s : str)
| CtrlC.

(** The exceptions that cross function boundaries.  [OutOfFuel] is not a
    Python exception: it marks the fuel bound of the model's [while True]
    loops, and is shown never to be raised. *)
Inductive exn : Type :=
| SystemExit (code : Z)
| KeyboardInterrupt
| EOFError
| UnicodeEncodeError
| UnicodeDecodeError
| ValueError
| DatabaseError
| OutOfFuel.

(** [isinstance(e, Exception)]: what [except Exception] catches. *)
Definition is_Exception (e : exn) : bool :=
  match e with
  | SystemExit _ | KeyboardInterrupt | OutOfFuel => false
  | _ => true
  end.

(** Everything the script uses but does not define. *)
Record env : Type := {
  (** [str.lower] *)
  py_lower : str -> str;
  (** SQL [LOWER] under the server's collation *)
  sql_lower : str -> str;
  (** [hashlib.sha256(m).digest()] *)
  sha256 : bytes -> bytes;
  (** [bcrypt.gensalt(rounds, prefix)], given the 16 bytes it draws from
      [os.urandom] *)
  bcrypt_gensalt : N -> bytes -> bytes -> bytes;
  (** [bcrypt.hashpw(password, salt)]; [None] is [ValueError] *)
  bcrypt_hashpw : bytes -> bytes -> option bytes;
  (** [bcrypt.checkpw(password, hashed)] *)
  bcrypt_checkpw : bytes -> bytes -> bool;
  (** the answer of the server to the n-th connection attempt *)
  pg_connect : nat -> conn_params -> connect_result;
  (** whether the n-th statement or commit of the session fails and, if
      so, what the failure leaves of the session's uncommitted work *)
  db_fault : nat -> option (list account -> list account);
  (** the n-th draw of 16 bytes from [os.urandom] *)
  urandom : nat -> bytes;
  (** the time stamp the logging module renders, [%Y-%m-%d %H:%M:%S] *)
  asctime : str
}.

(** The state the script acts on. *)
Record world : Type := {
  (** what the operator is still going to type *)
  stdin : list event;
  (** the committed rows of table [account] *)
  accounts : list account;
  (** the rows as the open transaction of the session sees them *)
  session : list account;
  conn_open : bool;
  (** the records of [password_reset.log] *)
  audit : list str;
  (** the connection attempts made so far *)
  connects : list conn_params;
  (** statements and commits issued so far *)
  db_ops : nat;
  (** draws from [os.urandom] so far *)
  rand_calls : nat
}.

Definition set_stdin (w : world) (v : list event) : world :=
  {| stdin := v; accounts := accounts w; session := session w;
     conn_open := conn_open w; audit := audit w; connects := connects w;
     db_ops := db_ops w; rand_calls := rand_calls w |}.

Definition set_accounts (w : world) (v : list account) : world :=
  {| stdin := stdin w; accounts := v; session := session w;
     conn_open := conn_open w; audit := audit w; connects := connects w;
     db_ops := db_ops w; rand_calls := rand_calls w |}.

Definition set_session (w : world) (v : list account) : world :=
  {| stdin := stdin w; accounts := accounts w; session := v;
     conn_open := conn_open w; audit := audit w; connects := connects w;
     db_ops := db_ops w; rand_calls := rand_calls w |}.

Definition set_conn_open (w : world) (v : bool) : world :=
  {| stdin := stdin w; accounts := accounts w; session := session w;
     conn_open := v; audit := audit w; connects := connects w;
     db_ops := db_ops w; rand_calls := rand_calls w |}.

Definition set_audit (w : world) (v : list str) : world :=
  {| stdin := stdin w; accounts := accounts w; session := session w;
     conn_open := conn_open w; audit := v; connects := connects w;
     db_ops := db_ops w; rand_calls := rand_calls w |}.

Definition set_connects (w : world) (v : list conn_params) : world :=
  {| stdin := stdin w; accounts := accounts w; session := session w;
     conn_open := conn_open w; audit := audit w; connects := v;
     db_ops := db_ops w; rand_calls := rand_calls w |}.

Definition set_db_ops (w : world) (v : nat) : world :=
  {| stdin := stdin w; accounts := accounts w; session := session w;
     conn_open := conn_open w; audit := audit w; connects := connects w;
     db_ops := v; rand_calls := rand_calls w |}.

Definition set_rand_calls (w : world) (v : nat) : world :=
  {| stdin := stdin w; accounts := accounts w; session := session w;
     conn_open := conn_open w; audit := audit w; connects := connects w;
     db_ops := db_ops w; rand_calls := v |}.

(* ================================================================== *)
(** ** The monad of the script: state and exceptions *)
(* ================================================================== *)

Inductive res (A : Type) : Type :=
| Ok (a : A)
| Raise (e : exn).

Arguments Ok {A} a.
Arguments Raise {A} e.

Definition M (A : Type) : Type := world -> res A * world.

Definition ret {A} (a : A) : M A := fun w => (Ok a, w).

Definition raise {A} (e : exn) : M A := fun w => (Raise e, w).

Definition bind {A B} (m : M A) (k : A -> M B) : M B :=
  fun w =>
    match m w with
    | (Ok a, w') => k a w'
    | (Raise e, w') => (Raise e, w')
    end.

Declare Scope py_scope.
Delimit Scope py_scope with py.
Notation "x <- m ;; k" := (bind m (fun x => k))
  (at level 61, m at next level, right associativity) : py_scope.
Notation "m ;; k" := (bind m (fun _ => k))
  (at level 61, right associativity) : py_scope.
Local Open Scope py_scope.

(** [try: m  except <caught> as e: handler e]. *)
Definition try_except {A} (m : M A) (caught : exn -> bool)
    (handler : exn -> M A) : M A :=
  fun w =>
    match m w with
    | (Ok a, w') => (Ok a, w')
    | (Raise e, w') => if caught e then handler e w' else (Raise e, w')
    end.

(** [try: m  finally: cleanup]. *)
Definition try_finally {A} (m : M A) (cleanup : M unit) : M A :=
  fun w =>
    match m w with
    | (r, w') =>
        match cleanup w' with
        | (Ok _, w'') => (r, w'')
        | (Raise e, w'') => (Raise e, w'')
        end
    end.

(** [while True: body], where [body] answers [None] to go round again
    ([continue]) and [Some a] to leave the loop with [a]. *)
Fixpoint loop_until {A} (fuel : nat) (body : M (option A)) : M A :=
  match fuel with
  | O => raise OutOfFuel
  | S fuel' =>
      r <- body ;;
      match r with
      | Some a => ret a
      | None => loop_until fuel' body
      end
  end.

(** Every round of the script's [while True] loops reads from the
    terminal first, so the pending input bounds the number of rounds. *)
Definition while_true {A} (body : M (option A)) : M A :=
  fun w => loop_until (S (List.length (stdin w))) body w.

(** [body] reads from the terminal in every round that goes round again. *)
Definition consuming {A} (body : M (option A)) : Prop :=
  forall w w', body w = (Ok None, w') ->
    (List.length (stdin w') < List.length (stdin w))%nat.

(** Every run of [m] relates the world before to the world after by [R]. *)
Definition preserves (R : world -> world -> Prop) {A} (m : M A) : Prop :=
  forall w r w', m w = (r, w') -> R w w'.

(** [m] never runs a loop out of fuel. *)
Definition fuel_safe {A} (m : M A) : Prop :=
  forall w r w', m w = (r, w') -> r <> Raise OutOfFuel.

(** Every exception [m] raises satisfies [P]. *)
Definition raises_only (P : exn -> Prop) {A} (m : M A) : Prop :=
  forall w e w', m w = (Raise e, w') -> P e.

(** An exception that ends the process with status 0 or 1. *)
Definition exits_0_or_1 (e : exn) : Prop :=
  match e with
  | SystemExit code => code = 0%Z \/ code = 1%Z
  | _ => True
  end.

(** The columns of a row that identify the account. *)
Definition identity_columns (r : account) : Z * str * bool :=
  (id r, username r, inactive r).

(** [m] never gives input back to the terminal. *)
Definition no_unread {A} (m : M A) : Prop :=
  preserves (fun w w' => (List.length (stdin w') <= List.length (stdin w))%nat) m.

(** The committed table and the audit log are as they were. *)
Definition same_store (w w' : world) : Prop :=
  accounts w' = accounts w /\ audit w' = audit w.

(** The committed table, the session's view of it and the audit log are
    as they were. *)
Definition same_data (w w' : world) : Prop :=
  accounts w' = accounts w /\ session w' = session w /\ audit w' = audit w.

(** The trace of connection attempts has only grown. *)
Definition more_connects (w w' : world) : Prop :=
  exists tail, connects w' = connects w ++ tail.

(** What is left to read is a tail of what was there. *)
Definition input_suffix (w w' : world) : Prop :=
  exists read, stdin w = read ++ stdin w'.

(** [for i in items: body i], where [body] answers [Some a] to [return a]
    from inside the loop; [None] at the end is falling out of the loop. *)
Fixpoint for_each {I A} (items : list I) (body : I -> M (option A))
    : M (option A) :=
  match items with
  | [] => ret None
  | i :: rest =>
      r <- body i ;;
      match r with
      | Some a => ret (Some a)
      | None => for_each rest body
      end
  end.

(** [sys.exit(code)]. *)
Definition sys_exit {A} (code : Z) : M A := raise (SystemExit code).

(** [input(prompt)]: the next line of the terminal. *)
Definition input : M str :=
  fun w =>
    match stdin w with
    | [] => (Raise EOFError, w)
    | Line s :: rest => (Ok s, set_stdin w rest)
    | CtrlC :: rest => (Raise KeyboardInterrupt, set_stdin w rest)
    end.

(** [getpass.getpass(prompt)]: the next line of the terminal, not echoed. *)
Definition getpass : M str := input.

(** [s.encode('utf-8')] and [b.decode('utf-8')] as they raise. *)
Definition str_encode (s : str) : M bytes :=
  match encode_utf8 s with
  | Some b => ret b
  | None => raise UnicodeEncodeError
  end.

Definition bytes_decode (b : bytes) : M str :=
  match decode_utf8 b with
  | Some s => ret s
  | None => raise UnicodeDecodeError
  end.

(** [not s] for a [str]. *)
Definition is_empty (s : str) : bool :=
  match s with
  | [] => true
  | _ :: _ => false
  end.

(** The branch of [connect_database] that a lowercased
    [OperationalError] message selects, in the order of the
    [if]/[elif] chain. *)
Inductive error_kind : Type :=
| DbMissing
| AuthFailed
| Refused
| Unknown.

Definition classify (error_msg : str) : error_kind :=
  if contains (lit "database") error_msg
     && contains (lit "does not exist") error_msg then DbMissing
  else if contains (lit "authentication failed") error_msg
          || contains (lit "password") error_msg then AuthFailed
  else if contains (lit "connection refused") error_msg
          || contains (lit "could not connect") error_msg then Refused
  else Unknown.

(** [UPDATE account SET password = p1, passhash = p2 WHERE id = account_id]
    on a table. *)
Definition set_hashes (p1 p2 : str) (account_id : Z) (r : account) : account :=
  if Z.eqb (id r) account_id then
    {| id := id r; username := username r; inactive := inactive r;
       password := p1; passhash := p2 |}
  else r.

Definition sql_update (p1 p2 : str) (account_id : Z) (rows : list account)
    : list account :=
  map (set_hashes p1 p2 account_id) rows.

(** The command line: [--host], [--port], [--user], [--db]. *)
Record args : Type := {
  arg_host : str;
  arg_port : Z;
  arg_user : str;
  arg_db : str
}.

Definition default_args : args :=
  {| arg_host := lit "localhost"; arg_port := 5432;
     arg_user := lit "psforever"; arg_db := lit "psforever" |}.

(** The message of the audit record. *)
Definition audit_message (account_id : Z) (exact_username : str) : str :=
  lit "Password reset for account ID: " ++ str_of_int account_id
  ++ lit ", username: " ++ exact_username.

(* ================================================================== *)
(** ** The script *)
(* ================================================================== *)

Section Script.

Variable E : env.

(** *** Library calls *)

(** [bcrypt.gensalt(rounds=..., prefix=...)]. *)
Definition gensalt (rounds : N) (prefix : bytes) : M bytes :=
  fun w =>
    (Ok (bcrypt_gensalt E rounds prefix (urandom E (rand_calls w))),
     set_rand_calls w (S (rand_calls w))).

(** [bcrypt.hashpw(data, salt)]. *)
Definition hashpw (data salt : bytes) : M bytes :=
  match bcrypt_hashpw E data salt with
  | Some h => ret h
  | None => raise ValueError
  end.

(** [psycopg2.connect(...)]; a new session sees the committed rows. *)
Definition psycopg2_connect (params : conn_params) : M connect_result :=
  fun w =>
    let r := pg_connect E (List.length (connects w)) params in
    let w1 := set_connects w (connects w ++ [params]) in
    match r with
    | Connected => (Ok r, set_conn_open (set_session w1 (accounts w1)) true)
    | _ => (Ok r, w1)
    end.

(** [cur.execute(stmt)], where [effect] is what [stmt] does to the rows.
    A failing statement raises and may leave any part of its work in the
    session's uncommitted view. *)
Definition cursor_execute (effect : list account -> list account) : M unit :=
  fun w =>
    let w1 := set_db_ops w (S (db_ops w)) in
    match db_fault E (db_ops w) with
    | None => (Ok tt, set_session w1 (effect (session w1)))
    | Some partial => (Raise DatabaseError, set_session w1 (partial (session w1)))
    end.

(** [conn.commit()]: the session's view becomes the committed table,
    or the commit fails and nothing is committed. *)
Definition conn_commit : M unit :=
  fun w =>
    let w1 := set_db_ops w (S (db_ops w)) in
    match db_fault E (db_ops w) with
    | None => (Ok tt, set_accounts w1 (session w1))
    | Some partial => (Raise DatabaseError, set_session w1 (partial (session w1)))
    end.

(** [conn.rollback()]: the uncommitted work of the session is dropped. *)
Definition conn_rollback : M unit :=
  fun w => (Ok tt, set_session w (accounts w)).

(** [conn.close()]: an open transaction is dropped with the session. *)
Definition conn_close : M unit :=
  fun w => (Ok tt, set_conn_open (set_session w (accounts w)) false).

(** [audit_log.info(message)] through the file handler with format
    [%(asctime)s - %(message)s]. *)
Definition audit_log_info (message : str) : M unit :=
  fun w => (Ok tt, set_audit w (audit w ++ [asctime E ++ lit " - " ++ message])).

(** *** Hash deriver *)

Definition generate_launcher_hash (username password : str) : M bytes :=
  (* Stage 1: SHA-256 of concatenated username + password *)
  salted <- str_encode (username ++ password) ;;
  let sha256_hash := hexdigest (sha256 E salted) in
  (* Stage 2: bcrypt the SHA-256 hash *)
  data <- str_encode sha256_hash ;;
  salt <- gensalt 12 (blit "2a") ;;
  hashpw data salt.

Definition generate_testclient_hash (password : str) : M bytes :=
  data <- str_encode password ;;
  salt <- gensalt 12 (blit "2a") ;;
  hashpw data salt.

(** *** Account store gateway *)

(** The loop of [connect_database]; [remaining] is
    [max_attempts - attempt]. *)
Fixpoint connect_attempts (remaining : nat) (host : str) (port : Z)
    (user database password : str) : M unit :=
  match remaining with
  | O => sys_exit 1
  | S remaining' =>
      r <- psycopg2_connect
             (Build_conn_params host port user password database) ;;
      match r with
      | Connected => ret tt
      | OperationalError e =>
          let error_msg := py_lower E e in
          match classify error_msg with
          | DbMissing =>
              answer <- input ;;
              let database := strip answer in
              let database :=
                if is_empty database then lit "psforever" else database in
              connect_attempts remaining' host port user database password
          | AuthFailed =>
              password <- getpass ;;
              connect_attempts remaining' host port user database password
          | Refused => sys_exit 1
          | Unknown =>
              connect_attempts remaining' host port user database password
          end
      | OtherError => sys_exit 1
      end
  end.



Definition connect_database (host : str) (port : Z) (user database : str)
    (password : option str) : M unit :=
  let max_attempts := 3%nat in
  let password :=
    match password with
    | None => user
    | Some p => p
    end in
  connect_attempts max_attempts host port user database password.

(** The row [fetchone] returns for
    [SELECT ... FROM account WHERE LOWER(username) = LOWER(%s)]. *)
Definition select_account (rows : list account) (username_search : str)
    : option account :=
  find (fun r => str_eqb (sql_lower E (username r))
                         (sql_lower E username_search)) rows.

Definition find_account (username_search : str)
    : M (option (Z * str * bool)) :=
  cursor_execute (fun rows => rows) ;;
  fun w =>
    match select_account (session w) username_search with
    | Some result => (Ok (Some (id result, username result, inactive result)), w)
    | None => (Ok None, w)
    end.

Definition update_password (account_id : Z)
    (launcher_hash testclient_hash : bytes) : M bool :=
  try_except
    (p1 <- bytes_decode launcher_hash ;;
     p2 <- bytes_decode testclient_hash ;;
     cursor_execute (sql_update p1 p2 account_id) ;;
     conn_commit ;;
     ret true)
    is_Exception
    (fun _ => conn_rollback ;; ret false).

(** *** Interactive controller *)

Definition get_password_input (min_length : nat) : M str :=
  while_true
    (password <- getpass ;;
     if (List.length password <? min_length)%nat then ret None
     else ret (Some password)).

Definition confirm_password (original : str) (max_attempts : nat)
    : M (option str) :=
  for_each (seq 0 max_attempts)
    (fun attempt =>
       confirm <- getpass ;;
       if str_eqb confirm original then ret (Some confirm) else ret None).

(** Step 1 of [main], one round of the loop. *)
Definition ask_username : M (option (Z * str * bool)) :=
  answer <- input ;;
  let username_search := strip answer in
  if is_empty username_search then ret None
  else
    account <- find_account username_search ;;
    match account with
    | None =>
        answer <- input ;;
        let retry := py_lower E (strip answer) in
        if negb (is_empty retry) && first_is "n" retry then sys_exit 0
        else ret None
    | Some found => ret (Some found)
    end.

(** Steps 2 and 3 of [main], one round of the loop. *)
Definition ask_password : M (option str) :=
  password <- get_password_input 6 ;;
  confirmed <- confirm_password password 3 ;;
  match confirmed with
  | None => ret None
  | Some _ => ret (Some password)
  end.

(** Step 4 of [main]. *)
Definition dry_run_confirm (is_inactive : bool) : M unit :=
  if is_inactive then
    answer <- input ;;
    let confirm := py_lower E (strip answer) in
    if is_empty confirm || negb (first_is "y" confirm) then sys_exit 0
    else ret tt
  else
    answer <- input ;;
    let confirm := py_lower E (strip answer) in
    if negb (is_empty confirm) && first_is "n" confirm then sys_exit 0
    else ret tt.

(** Steps 5 and 6 of [main]. *)
Definition reset_account (account_id : Z) (exact_username password : str)
    : M unit :=
  launcher_hash <- generate_launcher_hash exact_username password ;;
  testclient_hash <- generate_testclient_hash password ;;
  ok <- update_password account_id launcher_hash testclient_hash ;;
  if ok then audit_log_info (audit_message account_id exact_username)
  else sys_exit 1.

(** The audit record of a reset of account [account_id]. *)
Definition audit_record (account_id : Z) (exact_username : str) : str :=
  asctime E ++ lit " - " ++ audit_message account_id exact_username.

(** From [w] to [w'], the password of [row] was reset to [p]: on the
    data of [w], both hashes were derived from the stored user name of
    [row] and from [p], [update_password] returned [True] on them and
    committed them, and one audit record was written after that. *)
Definition reset_done (w w' : world) (row : account) (p : str) : Prop :=
  exists launcher_hash testclient_hash wl wt wu wc p1 p2,
    (accounts wl = accounts w /\ session wl = accounts w
     /\ audit wl = audit w)
    /\ generate_launcher_hash (username row) p wl = (Ok launcher_hash, wt)
    /\ generate_testclient_hash p wt = (Ok testclient_hash, wu)
    /\ update_password (id row) launcher_hash testclient_hash wu = (Ok true, wc)
    /\ decode_utf8 launcher_hash = Some p1
    /\ decode_utf8 testclient_hash = Some p2
    /\ (accounts wc = sql_update p1 p2 (id row) (accounts w)
        /\ audit wc = audit w)
    /\ accounts w' = accounts wc
    /\ audit w' = audit wc ++ [audit_record (id row) (username row)].

(** What [main] does once connected, inside [try: ... finally:]. *)
Definition main_body : M unit :=
  account <- while_true ask_username ;;
  let '(account_id, exact_username, is_inactive) := account in
  password <- while_true ask_password ;;
  dry_run_confirm is_inactive ;;
  reset_account account_id exact_username password.

Definition main (a : args) : M unit :=
  try_except
    (connect_database (arg_host a) (arg_port a) (arg_user a) (arg_db a) None)
    is_Exception
    (fun _ => sys_exit 1) ;;
  try_finally main_body conn_close.

(** The exit status the [if __name__ == '__main__'] block gives an
    outcome of [main]. *)
Definition exit_status (r : res unit) : Z :=
  match r with
  | Ok _ => 0%Z
  | Raise (SystemExit code) => code
  | Raise KeyboardInterrupt => 0%Z
  | Raise _ => 1%Z
  end.

(** The [if __name__ == '__main__'] block. *)
Definition run (a : args) (w : world) : Z * world :=
  match main a w with
  | (r, w') => (exit_status r, w')
  end.

End Script.

(* ================================================================== *)
(** ** A small concrete environment *)
(* ================================================================== *)

(** Stand-ins for the libraries and the server, used to run the script on
    concrete inputs.  They keep the shape of the interfaces (digest
    length, salt layout, hash-then-check) and none of the cryptography. *)
Module Demo.

Definition ascii_lower (s : str) : str :=
  map (fun c => if (65 <=? c) && (c <=? 90) then c + 32 else c)%N s.

(** A 32-byte "digest": the message, cut or zero-padded. *)
Definition digest (m : bytes) : bytes :=
  firstn 32 (m ++ repeat Byte.x00 32).

Definition two_digits (n : N) : bytes :=
  [byte_of_N (48 + n / 10); byte_of_N (48 + n mod 10)].

(** [$<prefix>$<rounds>$<seed>]. *)
Definition salt_of (rounds : N) (prefix seed : bytes) : bytes :=
  blit "$" ++ prefix ++ blit "$" ++ two_digits rounds ++ blit "$" ++ seed.

Definition byte_eqb (a b : Byte.byte) : bool :=
  N.eqb (Byte.to_N a) (Byte.to_N b).

Fixpoint bytes_eqb (a b : bytes) : bool :=
  match a, b with
  | [], [] => true
  | x :: a', y :: b' => byte_eqb x y && bytes_eqb a' b'
  | _, _ => false
  end.

(** Accepts what every bcrypt release accepts, at most 72 bytes and no
    NUL, and like bcrypt 5 answers anything else with [ValueError]. *)
Definition hash_of (data salt : bytes) : option bytes :=
  if (List.length data <=? 72)%nat
     && negb (existsb (byte_eqb Byte.x00) data)
  then Some (salt ++ data) else None.

Definition check (data hashed : bytes) : bool :=
  bytes_eqb (skipn (List.length hashed - List.length data) hashed) data.

(** A server that knows one database, [psforever], and one role whose
    password is its name. *)
Definition server (n : nat) (p : conn_params) : connect_result :=
  if negb (str_eqb (database p) (lit "psforever")) then
    OperationalError (lit "FATAL:  database does not exist")
  else if negb (str_eqb (conn_password p) (user p)) then
    OperationalError (lit "FATAL:  password authentication failed")
  else Connected.


(** A server that is not running. *)
Definition down (n : nat) (p : conn_params) : connect_result :=
  OperationalError (lit "connection to server failed: Connection refused").

(** A server that drops every connection for no stated reason. *)
Definition dropping (n : nat) (p : conn_params) : connect_result :=
  OperationalError (lit "server closed the connection unexpectedly").

Definition env_with (srv : nat -> conn_params -> connect_result)
    (fault : nat -> option (list account -> list account)) : env :=
  {| py_lower := ascii_lower;
     sql_lower := ascii_lower;
     sha256 := digest;
     bcrypt_gensalt := salt_of;
     bcrypt_hashpw := hash_of;
     bcrypt_checkpw := check;
     pg_connect := srv;
     db_fault := fault;
     urandom := fun n => repeat (byte_of_N (65 + N.of_nat n)) 16;
     asctime := lit "2024-01-31 12:00:00" |}.

Definition no_fault (n : nat) : option (list account -> list account) := None.

(** The [n]-th operation fails after writing only column [password]
    of every row. *)
Definition half_write (n : nat) (k : nat)
    : option (list account -> list account) :=
  if Nat.eqb k n then
    Some (map (fun r =>
                 {| id := id r; username := username r;
                    inactive := inactive r;
                    password := lit "partial"; passhash := passhash r |}))
  else None.

Definition env0 : env := env_with server no_fault.

Definition alice : account :=
  {| id := 7; username := lit "Alice"; inactive := true;
     password := lit "old-launcher-A"; passhash := lit "old-test-A" |}.

Definition bob : account :=
  {| id := 12; username := lit "Bob"; inactive := false;
     password := lit "old-launcher-B"; passhash := lit "old-test-B" |}.

Definition foo : account :=
  {| id := 3; username := lit "Foo"; inactive := false;
     password := lit "old-launcher-F"; passhash := lit "old-test-F" |}.

Definition table : list account := [alice; bob; foo].


(** A world before the script starts: nothing connected, nothing logged. *)
Definition start (rows : list account) (typed : list event) : world :=
  {| stdin := typed; accounts := rows; session := []; conn_open := false;
     audit := []; connects := []; db_ops := 0; rand_calls := 0 |}.

(** A world with an open session on [rows]. *)
Definition connected (rows : list account) (typed : list event) : world :=
  {| stdin := typed; accounts := rows; session := rows; conn_open := true;
     audit := []; connects := []; db_ops := 0; rand_calls := 0 |}.

Definition lines (l : list string) : list event :=
  map (fun s => Line (lit s)) l.

End Demo.

(* ================================================================== *)
(** ** Basic facts: strings, the world, the monad *)
(* ================================================================== *)

Lemma str_eqb_eq (a b : str) : str_eqb a b = true <-> a = b.
Proof.
  revert b; induction a as [|x a IH]; intros [|y b]; simpl;
    try (split; [discriminate | congruence]); try tauto.
  rewrite andb_true_iff, N.eqb_eq, IH. split.
  - intros [-> ->]; reflexivity.
  - intros H; injection H; auto.
Qed.

Lemma str_eqb_refl (a : str) : str_eqb a a = true.
Proof. apply str_eqb_eq; reflexivity. Qed.

Lemma str_eqb_neq (a b : str) : a <> b -> str_eqb a b = false.
Proof.
  intros H. destruct (str_eqb a b) eqn:Heq; [|reflexivity].
  apply str_eqb_eq in Heq. contradiction.
Qed.

Lemma lstrip_spaces (s : str) : forallb is_space s = true -> lstrip s = [].
Proof.
  induction s as [|c s IH]; simpl; [reflexivity|].
  intros H. apply andb_true_iff in H. destruct H as [Hc Hs].
  rewrite Hc. auto.
Qed.

(** An empty or all-whitespace answer strips to the empty string. *)
Lemma strip_spaces (s : str) : forallb is_space s = true -> strip s = [].
Proof.
  intros H. unfold strip, rstrip. rewrite (lstrip_spaces s H). reflexivity.
Qed.

Lemma set_stdin_stdin (w : world) (a b : list event) :
  set_stdin (set_stdin w a) b = set_stdin w b.
Proof. reflexivity. Qed.


(** Cutting down [bind], [ret] and friends in a goal. *)
Ltac unfold_m :=
  unfold bind, ret, raise, sys_exit, try_except, try_finally in *.

Lemma loop_until_fuel {A} (body : M (option A)) :
  consuming body ->
  forall n m w,
    (List.length (stdin w) < n)%nat -> (List.length (stdin w) < m)%nat ->
    loop_until n body w = loop_until m body w.
Proof.
  intros Hc. induction n as [|n IH]; intros m w Hn Hm; [lia|].
  destruct m as [|m]; [lia|].
  simpl. unfold bind. destruct (body w) as [[[a|]|e] w'] eqn:Hb; try reflexivity.
  apply Hc in Hb. apply IH; lia.
Qed.

(** The loop equation of [while True]. *)
Lemma while_true_unfold {A} (body : M (option A)) (w : world) :
  consuming body ->
  while_true body w =
  match body w with
  | (Ok (Some a), w') => (Ok a, w')
  | (Ok None, w') => while_true body w'
  | (Raise e, w') => (Raise e, w')
  end.
Proof.
  intros Hc. unfold while_true at 1. simpl. unfold bind.
  destruct (body w) as [[[a|]|e] w'] eqn:Hb; try reflexivity.
  unfold while_true. apply loop_until_fuel; auto; apply Hc in Hb; lia.
Qed.

(** Induction over the rounds of a [while True] loop: a property of the
    outcome that every leaving round establishes and every further round
    preserves holds of the loop. *)
Lemma while_true_ind {A} (body : M (option A))
    (P : world -> res A * world -> Prop) :
  consuming body ->
  (forall w a w', body w = (Ok (Some a), w') -> P w (Ok a, w')) ->
  (forall w e w', body w = (Raise e, w') -> P w (Raise e, w')) ->
  (forall w w' out, body w = (Ok None, w') -> P w' out -> P w out) ->
  forall w, P w (while_true body w).
Proof.
  intros Hc Hleave Hraise Hround.
  assert (Hn : forall n w, (List.length (stdin w) < n)%nat ->
                           P w (while_true body w)).
  { induction n as [|n IH]; intros w Hlt; [lia|].
    rewrite while_true_unfold by assumption.
    destruct (body w) as [[[a|]|e] w'] eqn:Hb; auto.
    apply Hround with (w' := w'); auto.
    apply IH. apply Hc in Hb. lia. }
  intros w. apply (Hn (S (List.length (stdin w)))). lia.
Qed.

Lemma input_no_unread : no_unread input.
Proof.
  intros w r w'. unfold input.
  destruct (stdin w) as [|[s|] rest] eqn:Hs; intros H; inversion H; subst;
    simpl; rewrite ?Hs; simpl; lia.
Qed.

Lemma input_line (w : world) (s : str) (rest : list event) :
  input (set_stdin w (Line s :: rest)) = (Ok s, set_stdin w rest).
Proof. reflexivity. Qed.

Lemma input_ok (w w' : world) (s : str) :
  input w = (Ok s, w') ->
  stdin w = Line s :: stdin w' /\ w' = set_stdin w (stdin w').
Proof.
  unfold input. destruct (stdin w) as [|[s0|] rest] eqn:Hs; intros H;
    inversion H; subst. simpl. auto.
Qed.

(* ================================================================== *)
(** ** Collecting and confirming the password *)
(* ================================================================== *)

Lemma getpass_line (w : world) (s : str) (rest : list event) :
  getpass (set_stdin w (Line s :: rest)) = (Ok s, set_stdin w rest).
Proof. reflexivity. Qed.

Lemma password_round_consuming (min_length : nat) :
  consuming
    (password <- getpass ;;
     if (List.length password <? min_length)%nat then ret None
     else ret (Some password)).
Proof.
  intros w w'. unfold_m. unfold getpass.
  destruct (input w) as [[s|e] w1] eqn:Hi; [|discriminate].
  apply input_ok in Hi. destruct Hi as [Hs _].
  destruct (List.length s <? min_length)%nat; intros H; inversion H; subst.
  rewrite Hs. simpl. lia.
Qed.

Lemma get_password_input_step (min_length : nat) (w : world) (s : str)
    (rest : list event) :
  get_password_input min_length (set_stdin w (Line s :: rest)) =
  if (List.length s <? min_length)%nat
  then get_password_input min_length (set_stdin w rest)
  else (Ok s, set_stdin w rest).
Proof.
  unfold get_password_input.
  rewrite while_true_unfold by apply password_round_consuming.
  unfold bind at 1. rewrite getpass_line.
  destruct (List.length s <? min_length)%nat; reflexivity.
Qed.

(** A password that [get_password_input] returns was read from the
    terminal and is long enough. *)
Lemma get_password_input_ok (min_length : nat) (w w' : world) (p : str) :
  get_password_input min_length w = (Ok p, w') ->
  (List.length (stdin w') < List.length (stdin w))%nat
  /\ (min_length <= List.length p)%nat
  /\ w' = set_stdin w (stdin w').
Proof.
  unfold get_password_input.
  pattern w, (while_true
    (password <- getpass ;;
     if (List.length password <? min_length)%nat then ret None
     else ret (Some password)) w).
  revert w. apply while_true_ind.
  - apply password_round_consuming.
  - intros w a w1. unfold_m. unfold getpass.
    destruct (input w) as [[s|e] w2] eqn:Hi; [|discriminate].
    apply input_ok in Hi. destruct Hi as [Hs Hw].
    destruct (List.length s <? min_length)%nat eqn:Hlen;
      intros H; inversion H; subst a w2; clear H.
    intros H; inversion H; subst p w'; clear H.
    apply Nat.ltb_ge in Hlen. rewrite Hs. simpl. repeat split; auto; lia.
  - intros w e w1 _ H. discriminate.
  - intros w w1 out Hb IH Hout.
    pose proof (password_round_consuming min_length w w1 Hb) as Hlt.
    destruct (IH Hout) as (H1 & H2 & H3).
    repeat split; auto; try lia.
    revert Hb. unfold_m. unfold getpass.
    destruct (input w) as [[s|e] w2] eqn:Hi; [|discriminate].
    apply input_ok in Hi. destruct Hi as [_ Hw].
    destruct (List.length s <? min_length)%nat; intros H; inversion H; subst w2.
    rewrite H3, Hw. reflexivity.
Qed.

Lemma confirm_round_no_unread (original : str) (items : list nat) :
  no_unread
    (for_each items
       (fun attempt : nat =>
          confirm <- getpass ;;
          if str_eqb confirm original then ret (Some confirm) else ret None)).
Proof.
  induction items as [|i items IH]; intros w r w'; simpl.
  - unfold ret. intros H; inversion H; subst; lia.
  - unfold bind at 1. unfold bind at 1. unfold getpass.
    destruct (input w) as [[s|e] w1] eqn:Hi.
    + apply input_no_unread in Hi.
      destruct (str_eqb s original); unfold ret at 1.
      * intros H; inversion H; subst; lia.
      * intros H. apply IH in H. lia.
    + apply input_no_unread in Hi. intros H; inversion H; subst; lia.
Qed.

Lemma confirm_password_no_unread (original : str) (max_attempts : nat) :
  no_unread (confirm_password original max_attempts).
Proof. apply confirm_round_no_unread. Qed.

Lemma confirm_password_match (original : str) (n : nat) (w : world)
    (rest : list event) :
  confirm_password original (S n) (set_stdin w (Line original :: rest)) =
  (Ok (Some original), set_stdin w rest).
Proof.
  unfold confirm_password. simpl. unfold bind at 1. unfold bind at 1.
  rewrite getpass_line, str_eqb_refl. reflexivity.
Qed.

Lemma for_each_shift {A} (body : M (option A)) (n k : nat) :
  for_each (seq (S k) n) (fun _ : nat => body) =
  for_each (seq k n) (fun _ : nat => body).
Proof.
  revert k; induction n as [|n IH]; intros k; simpl; [reflexivity|].
  rewrite IH. reflexivity.
Qed.

Lemma confirm_password_mismatch (original typed : str) (n : nat) (w : world)
    (rest : list event) :
  typed <> original ->
  confirm_password original (S n) (set_stdin w (Line typed :: rest)) =
  confirm_password original n (set_stdin w rest).
Proof.
  intros Hne. unfold confirm_password. simpl. unfold bind at 1. unfold bind at 1.
  rewrite getpass_line, (str_eqb_neq _ _ Hne). unfold ret at 1.
  rewrite for_each_shift. reflexivity.
Qed.


Lemma ask_password_consuming : consuming ask_password.
Proof.
  intros w w'. unfold ask_password. unfold bind at 1.
  destruct (get_password_input 6 w) as [[p|e] w1] eqn:Hg; [|discriminate].
  apply get_password_input_ok in Hg. destruct Hg as (Hlt & _ & _).
  unfold bind.
  destruct (confirm_password p 3 w1) as [[[c|]|e] w2] eqn:Hc;
    unfold ret; intros H; inversion H; subst.
  apply confirm_password_no_unread in Hc. lia.
Qed.



(** C7: [get_password_input] turns down every entry shorter than the
    minimum length and asks again, however many short entries come first,
    and returns the first entry that is long enough; with the minimum of
    6 that [main] passes, an entry of 5 characters is turned down and one
    of 6 characters is returned. *)
Theorem get_password_input_first_long_enough :
  (forall (min_length : nat) (rejected : list str) (p : str)
          (rest : list event) (w : world),
      Forall (fun s => (List.length s < min_length)%nat) rejected ->
      (min_length <= List.length p)%nat ->
      get_password_input min_length
        (set_stdin w (map Line rejected ++ Line p :: rest))
      = (Ok p, set_stdin w rest))
  /\ (forall (s : str) (rest : list event) (w : world),
        List.length s = 5%nat ->
        get_password_input 6 (set_stdin w (Line s :: rest))
        = get_password_input 6 (set_stdin w rest))
  /\ (forall (s : str) (rest : list event) (w : world),
        List.length s = 6%nat ->
        get_password_input 6 (set_stdin w (Line s :: rest))
        = (Ok s, set_stdin w rest)).
Proof.
  split; [|split].
  - intros min_length rejected p rest w Hrej Hp.
    induction Hrej as [|s rejected Hs _ IH]; simpl;
      rewrite get_password_input_step.
    + apply Nat.ltb_ge in Hp. rewrite Hp. reflexivity.
    + apply Nat.ltb_lt in Hs. rewrite Hs. exact IH.
  - intros s rest w Hs. rewrite get_password_input_step, Hs. reflexivity.
  - intros s rest w Hs. rewrite get_password_input_step, Hs. reflexivity.
Qed.


(* ================================================================== *)
(** ** Frame rules *)
(* ================================================================== *)

Section Preserves.

Variable R : world -> world -> Prop.
Hypothesis R_refl : forall w, R w w.
Hypothesis R_trans : forall a b c, R a b -> R b c -> R a c.

Lemma preserves_ret {A} (a : A) : preserves R (ret a).
Proof. intros w r w' H. inversion H; subst. apply R_refl. Qed.

Lemma preserves_raise {A} (e : exn) : preserves R (@raise A e).
Proof. intros w r w' H. inversion H; subst. apply R_refl. Qed.

Lemma preserves_bind {A B} (m : M A) (k : A -> M B) :
  preserves R m -> (forall a, preserves R (k a)) -> preserves R (bind m k).
Proof.
  intros Hm Hk w r w'. unfold bind.
  destruct (m w) as [[a|e] w1] eqn:Hmw.
  - intros H. eapply R_trans; [eapply Hm; eauto | eapply Hk; eauto].
  - intros H. inversion H; subst. eapply Hm; eauto.
Qed.

Lemma preserves_try_except {A} (m : M A) caught (handler : exn -> M A) :
  preserves R m -> (forall e, preserves R (handler e)) ->
  preserves R (try_except m caught handler).
Proof.
  intros Hm Hh w r w'. unfold try_except.
  destruct (m w) as [[a|e] w1] eqn:Hmw.
  - intros H. inversion H; subst. eapply Hm; eauto.
  - destruct (caught e); intros H.
    + eapply R_trans; [eapply Hm; eauto | eapply Hh; eauto].
    + inversion H; subst. eapply Hm; eauto.
Qed.

Lemma preserves_try_finally {A} (m : M A) (cleanup : M unit) :
  preserves R m -> preserves R cleanup -> preserves R (try_finally m cleanup).
Proof.
  intros Hm Hc w r w'. unfold try_finally.
  destruct (m w) as [r1 w1] eqn:Hmw.
  destruct (cleanup w1) as [[u|e] w2] eqn:Hcw; intros H; inversion H; subst;
    (eapply R_trans; [eapply Hm; eauto | eapply Hc; eauto]).
Qed.

Lemma preserves_loop_until {A} (body : M (option A)) (n : nat) :
  preserves R body -> preserves R (loop_until n body).
Proof.
  intros Hb. induction n as [|n IH]; simpl.
  - apply preserves_raise.
  - apply preserves_bind; [assumption|].
    intros [a|]; [apply preserves_ret | assumption].
Qed.

Lemma preserves_while_true {A} (body : M (option A)) :
  preserves R body -> preserves R (while_true body).
Proof.
  intros Hb w r w'. unfold while_true. apply preserves_loop_until, Hb.
Qed.

Lemma preserves_for_each {I A} (items : list I) (body : I -> M (option A)) :
  (forall i, preserves R (body i)) -> preserves R (for_each items body).
Proof.
  intros Hb. induction items as [|i items IH]; simpl.
  - apply preserves_ret.
  - apply preserves_bind; [apply Hb|].
    intros [a|]; [apply preserves_ret | assumption].
Qed.

End Preserves.

Lemma same_store_refl (w : world) : same_store w w.
Proof. split; reflexivity. Qed.

Lemma same_store_trans (a b c : world) :
  same_store a b -> same_store b c -> same_store a c.
Proof. intros [H1 H2] [H3 H4]. split; congruence. Qed.

Lemma more_connects_refl (w : world) : more_connects w w.
Proof. exists []. symmetry. apply app_nil_r. Qed.

Lemma more_connects_trans (a b c : world) :
  more_connects a b -> more_connects b c -> more_connects a c.
Proof.
  intros [t1 H1] [t2 H2]. exists (t1 ++ t2). rewrite H2, H1.
  symmetry. apply app_assoc.
Qed.

Lemma input_suffix_refl (w : world) : input_suffix w w.
Proof. exists []. reflexivity. Qed.

Lemma input_suffix_trans (a b c : world) :
  input_suffix a b -> input_suffix b c -> input_suffix a c.
Proof.
  intros [r1 H1] [r2 H2]. exists (r1 ++ r2). rewrite H1, H2.
  apply app_assoc.
Qed.

Lemma input_preserves_suffix : preserves input_suffix input.
Proof.
  intros w r w'. unfold input.
  destruct (stdin w) as [|[s|] rest] eqn:Hs; intros H; inversion H; subst;
    unfold input_suffix; simpl; rewrite ?Hs.
  - exists []. reflexivity.
  - exists [Line s]. reflexivity.
  - exists [CtrlC]. reflexivity.
Qed.

Lemma input_same_store : preserves same_store input.
Proof.
  intros w r w'. unfold input.
  destruct (stdin w) as [|[s|] rest]; intros H; inversion H; subst;
    split; reflexivity.
Qed.

Lemma input_more_connects : preserves more_connects input.
Proof.
  intros w r w'. unfold input.
  destruct (stdin w) as [|[s|] rest]; intros H; inversion H; subst;
    exists []; simpl; symmetry; apply app_nil_r.
Qed.

(* ================================================================== *)
(** ** Connecting to the database *)
(* ================================================================== *)

Section Connect.

Variable E : env.

(** One round of the loop of [connect_database], spelled out. *)
Lemma connect_attempts_step (remaining : nat) (host : str) (port : Z)
    (user database passwd : str) (w : world) :
  connect_attempts E (S remaining) host port user database passwd w =
  let params := Build_conn_params host port user passwd database in
  let w1 := set_connects w (connects w ++ [params]) in
  match pg_connect E (List.length (connects w)) params with
  | Connected => (Ok tt, set_conn_open (set_session w1 (accounts w1)) true)
  | OperationalError e =>
      match classify (py_lower E e) with
      | DbMissing =>
          match stdin w with
          | [] => (Raise EOFError, w1)
          | Line answer :: rest =>
              connect_attempts E remaining host port user
                (if is_empty (strip answer) then lit "psforever"
                 else strip answer)
                passwd (set_stdin w1 rest)
          | CtrlC :: rest => (Raise KeyboardInterrupt, set_stdin w1 rest)
          end
      | AuthFailed =>
          match stdin w with
          | [] => (Raise EOFError, w1)
          | Line answer :: rest =>
              connect_attempts E remaining host port user database answer
                (set_stdin w1 rest)
          | CtrlC :: rest => (Raise KeyboardInterrupt, set_stdin w1 rest)
          end
      | Refused => (Raise (SystemExit 1), w1)
      | Unknown =>
          connect_attempts E remaining host port user database passwd w1
      end
  | OtherError => (Raise (SystemExit 1), w1)
  end.
Proof.
  simpl. unfold bind at 1. unfold psycopg2_connect.
  destruct (pg_connect E (List.length (connects w))
              (Build_conn_params host port user passwd database))
    as [|e|]; try reflexivity.
  destruct (classify (py_lower E e)); try reflexivity.
  - unfold bind at 1. unfold input. simpl.
    destruct (stdin w) as [|[answer|] rest]; reflexivity.
  - unfold bind at 1. unfold getpass, input. simpl.
    destruct (stdin w) as [|[answer|] rest]; reflexivity.
Qed.





End Connect.

(** Frame reasoning through the structure of a monadic term, for a
    relation with reflexivity [Rrefl] and transitivity [Rtrans]. *)
Ltac frame_with Rrefl Rtrans :=
  repeat first
    [ assumption
    | match goal with H : _ |- _ => solve [apply H] end
    | apply (preserves_ret _ Rrefl)
    | apply (preserves_raise _ Rrefl)
    | apply (preserves_bind _ Rtrans); [|intros ?]
    | apply (preserves_try_except _ Rtrans); [|intros ?]
    | apply (preserves_try_finally _ Rtrans)
    | apply (preserves_while_true _ Rrefl Rtrans)
    | apply (preserves_for_each _ Rrefl Rtrans); intros ?
    | match goal with
      | |- preserves _ (match ?x with _ => _ end) => destruct x
      | |- preserves _ (if ?x then _ else _) => destruct x
      | |- preserves _ (let _ := _ in _) => cbv zeta
      | |- preserves _ (sys_exit _) => apply (preserves_raise _ Rrefl)
      end ].

Section ConnectFrames.

Variable E : env.

Lemma psycopg2_connect_same_store (params : conn_params) :
  preserves same_store (psycopg2_connect E params).
Proof.
  intros w r w'. unfold psycopg2_connect.
  destruct (pg_connect E _ params); intros H; inversion H; subst;
    split; reflexivity.
Qed.

Lemma psycopg2_connect_more_connects (params : conn_params) :
  preserves more_connects (psycopg2_connect E params).
Proof.
  intros w r w'. unfold psycopg2_connect.
  destruct (pg_connect E _ params); intros H; inversion H; subst;
    exists [params]; reflexivity.
Qed.

Lemma connect_attempts_same_store (remaining : nat) :
  forall host port user database passwd,
    preserves same_store
      (connect_attempts E remaining host port user database passwd).
Proof.
  induction remaining as [|remaining IH]; intros; simpl.
  - frame_with same_store_refl same_store_trans.
  - pose proof psycopg2_connect_same_store. pose proof input_same_store.
    unfold getpass.
    frame_with same_store_refl same_store_trans; apply IH.
Qed.

Lemma connect_attempts_more_connects (remaining : nat) :
  forall host port user database passwd,
    preserves more_connects
      (connect_attempts E remaining host port user database passwd).
Proof.
  induction remaining as [|remaining IH]; intros; simpl.
  - frame_with more_connects_refl more_connects_trans.
  - pose proof psycopg2_connect_more_connects. pose proof input_more_connects.
    unfold getpass.
    frame_with more_connects_refl more_connects_trans; apply IH.
Qed.

(** A round of the loop records its attempt first. *)
Lemma connect_attempts_first (remaining : nat) host port user database passwd
    (w w' : world) (r : res unit) :
  connect_attempts E (S remaining) host port user database passwd w = (r, w') ->
  exists tail,
    connects w'
    = connects w ++ Build_conn_params host port user passwd database :: tail.
Proof.
  simpl. unfold bind at 1.
  destruct (psycopg2_connect E _ w) as [[cr|e] w1] eqn:Hc.
  - assert (Hw1 : connects w1 = connects w
                  ++ [Build_conn_params host port user passwd database]).
    { revert Hc. unfold psycopg2_connect.
      destruct (pg_connect E _ _); intros H; inversion H; subst; reflexivity. }
    intros Hrest.
    assert (Hmore : more_connects w1 w').
    { revert Hrest. pose proof input_more_connects as Hi.
      pose proof (connect_attempts_more_connects remaining) as Hrec.
      generalize w1 r w'.
      change (preserves more_connects
                (match cr with
                 | Connected => ret tt
                 | OperationalError e =>
                     let error_msg := py_lower E e in
                     match classify error_msg with
                     | DbMissing =>
                         answer <- input ;;
                         let database0 := strip answer in
                         let database1 :=
                           if is_empty database0 then lit "psforever"
                           else database0 in
                         connect_attempts E remaining host port user
                           database1 passwd
                     | AuthFailed =>
                         password0 <- getpass ;;
                         connect_attempts E remaining host port user
                           database password0
                     | Refused => sys_exit 1
                     | Unknown =>
                         connect_attempts E remaining host port user
                           database passwd
                     end
                 | OtherError => sys_exit 1
                 end)).
      unfold getpass.
      frame_with more_connects_refl more_connects_trans; apply Hrec. }
    destruct Hmore as [tail Ht]. exists tail. rewrite Ht, Hw1.
    rewrite <- app_assoc. reflexivity.
  - revert Hc. unfold psycopg2_connect.
    destruct (pg_connect E _ _); discriminate.
Qed.

End ConnectFrames.


(** C10: when an attempt that is not the last fails because the
    database does not exist and the operator answers the prompt for a
    database name with an empty or all-whitespace line, the loop goes
    straight to the next attempt, and that attempt is made with database
    name [psforever] and the host, port, user and password as before. *)
Theorem connect_database_blank_name_is_psforever (E : env) (k : nat)
    (host : str) (port : Z) (user database passwd : str) (w : world)
    (e answer : str) (rest : list event) :
  pg_connect E (List.length (connects w))
    (Build_conn_params host port user passwd database) = OperationalError e ->
  classify (py_lower E e) = DbMissing ->
  stdin w = Line answer :: rest ->
  forallb is_space answer = true ->
  connect_attempts E (S (S k)) host port user database passwd w
  = connect_attempts E (S k) host port user (lit "psforever") passwd
      (set_stdin
         (set_connects w
            (connects w ++ [Build_conn_params host port user passwd database]))
         rest)
  /\ forall r w',
       connect_attempts E (S (S k)) host port user database passwd w = (r, w') ->
       nth_error (connects w') (S (List.length (connects w)))
       = Some (Build_conn_params host port user passwd (lit "psforever")).
Proof.
  intros Hfail Hkind Hin Hblank.
  assert (Hstep :
    connect_attempts E (S (S k)) host port user database passwd w
    = connect_attempts E (S k) host port user (lit "psforever") passwd
        (set_stdin
           (set_connects w
              (connects w ++ [Build_conn_params host port user passwd database]))
           rest)).
  { rewrite connect_attempts_step. cbv zeta.
    rewrite Hfail, Hkind, Hin, (strip_spaces _ Hblank). reflexivity. }
  split; [exact Hstep|].
  intros r w' Hrun. rewrite Hstep in Hrun.
  apply connect_attempts_first in Hrun. destruct Hrun as [tail Ht].
  rewrite Ht. cbn [connects set_stdin set_connects].
  rewrite nth_error_app2; rewrite length_app; simpl List.length; [|lia].
  replace (S (List.length (connects w)) - (List.length (connects w) + 1))%nat
    with 0%nat by lia.
  reflexivity.
Qed.

(* ================================================================== *)
(** ** Looking an account up and updating it *)
(* ================================================================== *)

Lemma set_session_same (w : world) : set_session w (session w) = w.
Proof. destruct w; reflexivity. Qed.

Lemma find_account_run (E : env) (s : str) (w : world) :
  db_fault E (db_ops w) = None ->
  find_account E s w =
  (Ok (option_map (fun r => (id r, username r, inactive r))
         (select_account E (session w) s)),
   set_db_ops w (S (db_ops w))).
Proof.
  intros Hok. unfold find_account, bind, cursor_execute. rewrite Hok.
  rewrite set_session_same. simpl.
  destruct (select_account E (session w) s); reflexivity.
Qed.

Lemma select_account_some (E : env) (rows : list account) (s : str)
    (row : account) :
  select_account E rows s = Some row ->
  In row rows /\ sql_lower E (username row) = sql_lower E s.
Proof.
  unfold select_account. intros H. apply find_some in H.
  destruct H as [Hin Hm]. apply str_eqb_eq in Hm. auto.
Qed.




Lemma sql_update_hit (p1 p2 : str) (account_id : Z) (rows : list account)
    (row : account) :
  In row (sql_update p1 p2 account_id rows) ->
  id row = account_id ->
  password row = p1 /\ passhash row = p2.
Proof.
  unfold sql_update. intros Hin Hid. apply in_map_iff in Hin.
  destruct Hin as (r0 & Hset & _). unfold set_hashes in Hset.
  destruct (Z.eqb (id r0) account_id) eqn:Heq.
  - subst row. simpl. auto.
  - subst row. apply Z.eqb_neq in Heq. contradiction.
Qed.

Lemma sql_update_keeps (p1 p2 : str) (account_id : Z) (rows : list account)
    (row : account) :
  In row rows ->
  In (set_hashes p1 p2 account_id row) (sql_update p1 p2 account_id rows).
Proof. intros H. unfold sql_update. apply in_map. exact H. Qed.

(** The four ways a call of [update_password] can go. *)
Lemma update_password_cases (E : env) (account_id : Z)
    (launcher_hash testclient_hash : bytes) (w : world) :
  exists ok w',
    update_password E account_id launcher_hash testclient_hash w = (Ok ok, w')
    /\ audit w' = audit w
    /\ (ok = true ->
        exists p1 p2,
          decode_utf8 launcher_hash = Some p1
          /\ decode_utf8 testclient_hash = Some p2
          /\ accounts w' = sql_update p1 p2 account_id (session w)
          /\ session w' = accounts w')
    /\ (ok = false -> accounts w' = accounts w /\ session w' = accounts w)
    /\ (ok = false <->
        decode_utf8 launcher_hash = None
        \/ decode_utf8 testclient_hash = None
        \/ db_fault E (db_ops w) <> None
        \/ db_fault E (S (db_ops w)) <> None).
Proof.
  unfold update_password, try_except, bind, bytes_decode.
  destruct (decode_utf8 launcher_hash) as [p1|] eqn:Hd1.
  2:{ exists false, (set_session w (accounts w)). simpl.
      repeat split; auto; discriminate. }
  destruct (decode_utf8 testclient_hash) as [p2|] eqn:Hd2.
  2:{ exists false, (set_session w (accounts w)). simpl.
      repeat split; auto; discriminate. }
  unfold ret at 1. unfold ret at 1. unfold cursor_execute.
  destruct (db_fault E (db_ops w)) as [partial|] eqn:Hf1.
  { eexists false, _. simpl. split; [reflexivity|].
    repeat split; auto; try discriminate.
    intros _. right. right. left. discriminate. }
  unfold conn_commit. cbn [db_ops set_session set_db_ops].
  destruct (db_fault E (S (db_ops w))) as [partial|] eqn:Hf2.
  { eexists false, _. simpl. split; [reflexivity|].
    repeat split; auto; try discriminate.
    intros _. right. right. right. discriminate. }
  eexists true, _. simpl. split; [reflexivity|].
  split; [reflexivity|]. split; [|split].
  - intros _. exists p1, p2. repeat split; reflexivity.
  - discriminate.
  - split; [discriminate|].
    intros [H|[H|[H|H]]]; congruence.
Qed.

(** C1: [update_password] always returns, with [True] or [False].
    [True] means both decodings, the [UPDATE] and the commit went
    through: the committed table is the session's table with both hash
    columns of every row of that id set to the new values.  Any error on
    the way (a hash that is not UTF-8, a failing statement, a failing
    commit) gives [False] after a rollback, with the committed table as
    it was before the call and the session back on it.  So a row of that
    id never ends up with only one of its two hashes replaced. *)
Theorem update_password_atomic (E : env) (account_id : Z)
    (launcher_hash testclient_hash : bytes) (w : world) :
  exists ok w',
    update_password E account_id launcher_hash testclient_hash w = (Ok ok, w')
    /\ audit w' = audit w
    /\ (ok = true ->
        exists p1 p2,
          decode_utf8 launcher_hash = Some p1
          /\ decode_utf8 testclient_hash = Some p2
          /\ accounts w' = sql_update p1 p2 account_id (session w)
          /\ session w' = accounts w'
          /\ (forall row,
                 In row (accounts w') -> id row = account_id ->
                 password row = p1 /\ passhash row = p2)
          /\ (forall row,
                 In row (session w) ->
                 In (set_hashes p1 p2 account_id row) (accounts w')))
    /\ (ok = false -> accounts w' = accounts w /\ session w' = accounts w)
    /\ (ok = false <->
        decode_utf8 launcher_hash = None
        \/ decode_utf8 testclient_hash = None
        \/ db_fault E (db_ops w) <> None
        \/ db_fault E (S (db_ops w)) <> None)
    /\ (forall row',
          In row' (accounts w') -> id row' = account_id ->
          (exists p1 p2,
              decode_utf8 launcher_hash = Some p1
              /\ decode_utf8 testclient_hash = Some p2
              /\ password row' = p1 /\ passhash row' = p2)
          \/ In row' (accounts w)).
Proof.
  destruct (update_password_cases E account_id launcher_hash testclient_hash w)
    as (ok & w' & Hrun & Haud & Htrue & Hfalse & Hiff).
  exists ok, w'. split; [exact Hrun|]. split; [exact Haud|].
  split; [|split; [exact Hfalse|split; [exact Hiff|]]].
  - intros Hok. destruct (Htrue Hok) as (p1 & p2 & Hd1 & Hd2 & Hacc & Hses).
    exists p1, p2.
    split; [exact Hd1|]. split; [exact Hd2|].
    split; [exact Hacc|]. split; [exact Hses|]. split.
    + intros row Hin Hid. rewrite Hacc in Hin.
      apply (sql_update_hit p1 p2 account_id (session w) row Hin Hid).
    + intros row Hin. rewrite Hacc. apply sql_update_keeps. exact Hin.
  - intros row' Hin Hid. destruct ok.
    + left. destruct (Htrue eq_refl) as (p1 & p2 & Hd1 & Hd2 & Hacc & _).
      exists p1, p2. split; [exact Hd1|]. split; [exact Hd2|].
      rewrite Hacc in Hin.
      apply (sql_update_hit p1 p2 account_id (session w) row' Hin Hid).
    + right. destruct (Hfalse eq_refl) as [Hacc _]. rewrite <- Hacc.
      exact Hin.
Qed.

(* ================================================================== *)
(** ** UTF-8: decoding undoes encoding *)
(* ================================================================== *)

Section Utf8.

Local Open Scope N_scope.

Ltac Zify.zify_post_hook ::= Z.to_euclidean_division_equations.

Lemma to_N_byte_of_N (n : N) : n < 256 -> Byte.to_N (byte_of_N n) = n.
Proof.
  intros H. unfold byte_of_N. rewrite N.mod_small by exact H.
  destruct (Byte.of_N n) as [b|] eqn:Hb.
  - apply Byte.to_of_N. exact Hb.
  - apply Byte.of_N_None_iff in Hb. lia.
Qed.

(** Setting the low bits of a multiple of a power of two adds them. *)
Lemma lor_add (x n b : N) : b < 2 ^ n -> N.lor (x * 2 ^ n) b = x * 2 ^ n + b.
Proof.
  intros Hb.
  assert (Hland : N.land (x * 2 ^ n) b = 0).
  { apply N.bits_inj. intros m. rewrite N.land_spec, N.bits_0.
    destruct (N.lt_ge_cases m n) as [Hm|Hm].
    - rewrite N.mul_pow2_bits_low by exact Hm. reflexivity.
    - rewrite <- (N.mod_small b (2 ^ n)) by exact Hb.
      rewrite N.mod_pow2_bits_high by exact Hm. apply andb_false_r. }
  rewrite <- N.lxor_lor by exact Hland.
  symmetry. apply N.add_nocarry_lxor. exact Hland.
Qed.

Lemma lor_lead2 (y : N) : y < 64 -> N.lor 192 y = 192 + y.
Proof. intros H. apply (lor_add 3 6 y H). Qed.

Lemma lor_lead3 (y : N) : y < 16 -> N.lor 224 y = 224 + y.
Proof. intros H. apply (lor_add 14 4 y H). Qed.

Lemma lor_lead4 (y : N) : y < 8 -> N.lor 240 y = 240 + y.
Proof. intros H. apply (lor_add 30 3 y H). Qed.

Lemma lor_cont (y : N) : y < 64 -> N.lor 128 y = 128 + y.
Proof. intros H. apply (lor_add 2 6 y H). Qed.

Lemma land_63 (c : N) : N.land c 63 = c mod 64.
Proof. apply (N.land_ones c 6). Qed.

Lemma land_31 (c : N) : N.land c 31 = c mod 32.
Proof. apply (N.land_ones c 5). Qed.

Lemma land_15 (c : N) : N.land c 15 = c mod 16.
Proof. apply (N.land_ones c 4). Qed.

Lemma land_7 (c : N) : N.land c 7 = c mod 8.
Proof. apply (N.land_ones c 3). Qed.

Lemma shiftr_6 (c : N) : N.shiftr c 6 = c / 64.
Proof. apply (N.shiftr_div_pow2 c 6). Qed.

Lemma shiftr_12 (c : N) : N.shiftr c 12 = c / 4096.
Proof. apply (N.shiftr_div_pow2 c 12). Qed.

Lemma shiftr_18 (c : N) : N.shiftr c 18 = c / 262144.
Proof. apply (N.shiftr_div_pow2 c 18). Qed.

Lemma join_6 (x y : N) : y < 64 -> N.lor (N.shiftl x 6) y = x * 64 + y.
Proof. intros H. rewrite N.shiftl_mul_pow2. apply (lor_add x 6 y H). Qed.

Lemma join_12 (x y : N) : y < 4096 -> N.lor (N.shiftl x 12) y = x * 4096 + y.
Proof. intros H. rewrite N.shiftl_mul_pow2. apply (lor_add x 12 y H). Qed.

Lemma join_18 (x y : N) : y < 262144 -> N.lor (N.shiftl x 18) y = x * 262144 + y.
Proof. intros H. rewrite N.shiftl_mul_pow2. apply (lor_add x 18 y H). Qed.

(** The bytes of one encoded character, as numbers. *)
Lemma some_eq {A} (x y : A) : Some x = Some y -> x = y.
Proof. intros H. congruence. Qed.

Lemma encode_utf8_char_bytes (c : N) (bc : bytes) :
  encode_utf8_char c = Some bc ->
  (c < 128 /\ map Byte.to_N bc = [c])
  \/ (128 <= c < 2048 /\ map Byte.to_N bc = [192 + c / 64; 128 + c mod 64])
  \/ (2048 <= c < 65536 /\ ~ (55296 <= c < 57344)
      /\ map Byte.to_N bc
         = [224 + c / 4096; 128 + (c / 64) mod 64; 128 + c mod 64])
  \/ (65536 <= c < 1114112
      /\ map Byte.to_N bc
         = [240 + c / 262144; 128 + (c / 4096) mod 64;
            128 + (c / 64) mod 64; 128 + c mod 64]).
Proof.
  unfold encode_utf8_char.
  destruct (N.ltb_spec c 128) as [H1|H1].
  { intros H; apply some_eq in H; subst bc. left. split; [exact H1|].
    cbn [map]. rewrite to_N_byte_of_N by lia. reflexivity. }
  destruct (N.ltb_spec c 2048) as [H2|H2].
  { intros H; apply some_eq in H; subst bc. right; left. split; [lia|].
    cbn [map]. rewrite shiftr_6, land_63.
    rewrite lor_lead2, lor_cont by lia.
    rewrite !to_N_byte_of_N by lia. reflexivity. }
  destruct (N.ltb_spec c 65536) as [H3|H3].
  { destruct (N.leb_spec 55296 c) as [H4|H4];
      [destruct (N.ltb_spec c 57344) as [H5|H5]|]; cbn [andb];
      try discriminate;
      intros H; apply some_eq in H; subst bc; right; right; left;
      (split; [lia|]); (split; [lia|]);
      cbn [map]; rewrite shiftr_6, shiftr_12, !land_63;
      rewrite lor_lead3, !lor_cont by lia;
      rewrite !to_N_byte_of_N by lia; reflexivity. }
  destruct (N.ltb_spec c 1114112) as [H4|H4]; [|discriminate].
  intros H; apply some_eq in H; subst bc. right; right; right. split; [lia|].
  cbn [map]. rewrite shiftr_6, shiftr_12, shiftr_18, !land_63.
  rewrite lor_lead4, !lor_cont by lia.
  rewrite !to_N_byte_of_N by lia. reflexivity.
Qed.

Lemma is_cont_true (b : N) : 128 <= b < 192 -> is_cont b = true.
Proof.
  intros H. unfold is_cont. apply andb_true_iff. split.
  - apply N.leb_le. lia.
  - apply N.ltb_lt. lia.
Qed.

Lemma ltb_false (a b : N) : b <= a -> (a <? b) = false.
Proof. intros H. apply N.ltb_ge. exact H. Qed.

Lemma ltb_true (a b : N) : a < b -> (a <? b) = true.
Proof. intros H. apply N.ltb_lt. exact H. Qed.

(** Decoding reads one encoded character back and goes on. *)
Lemma decode_utf8_N_char (c : N) (bc : bytes) (rest : list N) :
  encode_utf8_char c = Some bc ->
  decode_utf8_N (map Byte.to_N bc ++ rest)
  = option_map (cons c) (decode_utf8_N rest).
Proof.
  intros Henc. apply encode_utf8_char_bytes in Henc.
  destruct Henc as [[Hc ->] | [[Hc ->] | [(Hc & Hs & ->) | [Hc ->]]]].
  - cbn [app decode_utf8_N]. rewrite ltb_true by lia. reflexivity.
  - cbn [app decode_utf8_N].
    rewrite (ltb_false (192 + c / 64) 128) by lia.
    rewrite (ltb_false (192 + c / 64) 194) by lia.
    rewrite (ltb_true (192 + c / 64) 224) by lia.
    rewrite is_cont_true by lia.
    unfold cont_bits. rewrite land_31, land_63, join_6 by lia.
    replace ((192 + c / 64) mod 32 * 64 + (128 + c mod 64) mod 64) with c
      by lia.
    reflexivity.
  - cbn [app decode_utf8_N].
    rewrite (ltb_false (224 + c / 4096) 128) by lia.
    rewrite (ltb_false (224 + c / 4096) 194) by lia.
    rewrite (ltb_false (224 + c / 4096) 224) by lia.
    rewrite (ltb_true (224 + c / 4096) 240) by lia.
    rewrite !is_cont_true by lia.
    assert (H1 : ((224 + c / 4096 =? 224) && (128 + (c / 64) mod 64 <? 160))
                 = false).
    { destruct (N.eqb_spec (224 + c / 4096) 224) as [He|He]; [|reflexivity].
      cbn [andb]. apply N.ltb_ge. lia. }
    assert (H2 : ((224 + c / 4096 =? 237) && (160 <=? 128 + (c / 64) mod 64))
                 = false).
    { destruct (N.eqb_spec (224 + c / 4096) 237) as [He|He]; [|reflexivity].
      cbn [andb]. apply N.leb_gt. lia. }
    rewrite H1, H2. cbn [andb negb].
    unfold cont_bits. rewrite land_15, !land_63.
    rewrite (join_6 _ _) by lia. rewrite join_12 by lia.
    replace ((224 + c / 4096) mod 16 * 4096
             + ((128 + (c / 64) mod 64) mod 64 * 64 + (128 + c mod 64) mod 64))
      with c by lia.
    reflexivity.
  - cbn [app decode_utf8_N].
    rewrite (ltb_false (240 + c / 262144) 128) by lia.
    rewrite (ltb_false (240 + c / 262144) 194) by lia.
    rewrite (ltb_false (240 + c / 262144) 224) by lia.
    rewrite (ltb_false (240 + c / 262144) 240) by lia.
    rewrite (ltb_true (240 + c / 262144) 245) by lia.
    rewrite !is_cont_true by lia.
    assert (H1 : ((240 + c / 262144 =? 240)
                  && (128 + (c / 4096) mod 64 <? 144)) = false).
    { destruct (N.eqb_spec (240 + c / 262144) 240) as [He|He]; [|reflexivity].
      cbn [andb]. apply N.ltb_ge. lia. }
    assert (H2 : ((240 + c / 262144 =? 244)
                  && (144 <=? 128 + (c / 4096) mod 64)) = false).
    { destruct (N.eqb_spec (240 + c / 262144) 244) as [He|He]; [|reflexivity].
      cbn [andb]. apply N.leb_gt. lia. }
    rewrite H1, H2. cbn [andb negb].
    unfold cont_bits. rewrite land_7, !land_63.
    rewrite (join_6 _ _) by lia. rewrite (join_12 _ _) by lia.
    rewrite join_18 by lia.
    replace ((240 + c / 262144) mod 8 * 262144
             + ((128 + (c / 4096) mod 64) mod 64 * 4096
                + ((128 + (c / 64) mod 64) mod 64 * 64
                   + (128 + c mod 64) mod 64)))
      with c by lia.
    reflexivity.
Qed.

(** [b.decode('utf-8')] undoes [s.encode('utf-8')]. *)
Theorem decode_encode_utf8 (s : str) (b : bytes) :
  encode_utf8 s = Some b -> decode_utf8 b = Some s.
Proof.
  revert b. induction s as [|c s IH]; intros b; simpl.
  - intros H; injection H as <-. reflexivity.
  - destruct (encode_utf8_char c) as [bc|] eqn:Hc; [|discriminate].
    destruct (encode_utf8 s) as [bs|] eqn:Hs; [|discriminate].
    intros H; injection H as <-.
    unfold decode_utf8. rewrite map_app.
    rewrite (decode_utf8_N_char c bc _ Hc).
    specialize (IH bs eq_refl). unfold decode_utf8 in IH. rewrite IH.
    reflexivity.
Qed.

End Utf8.

(* ================================================================== *)
(** ** Deriving the hashes *)
(* ================================================================== *)

Lemma encode_utf8_app (a b : str) :
  encode_utf8 (a ++ b) =
  match encode_utf8 a, encode_utf8 b with
  | Some x, Some y => Some (x ++ y)
  | _, _ => None
  end.
Proof.
  induction a as [|c a IH]; simpl.
  - destruct (encode_utf8 b); reflexivity.
  - rewrite IH. destruct (encode_utf8_char c) as [bc|]; [|reflexivity].
    destruct (encode_utf8 a) as [x|]; [|reflexivity].
    destruct (encode_utf8 b) as [y|]; [|reflexivity].
    rewrite app_assoc. reflexivity.
Qed.

Lemma encode_utf8_char_scalar (c : N) :
  scalar c = true <-> exists b, encode_utf8_char c = Some b.
Proof.
  unfold scalar, encode_utf8_char.
  destruct (N.ltb_spec c 128); [split; [eauto|intros _]|].
  { apply andb_true_iff. split.
    - apply N.ltb_lt. lia.
    - apply negb_true_iff, andb_false_iff. left. apply N.leb_gt. lia. }
  destruct (N.ltb_spec c 2048); [split; [eauto|intros _]|].
  { apply andb_true_iff. split.
    - apply N.ltb_lt. lia.
    - apply negb_true_iff, andb_false_iff. left. apply N.leb_gt. lia. }
  destruct (N.ltb_spec c 65536).
  { assert (Hlt : (c <? 1114112)%N = true) by (apply N.ltb_lt; lia).
    rewrite Hlt. simpl.
    destruct ((55296 <=? c)%N && (c <? 57344)%N); simpl; split; eauto.
    - discriminate.
    - intros [b Hb]. discriminate. }
  assert (Hsur : ((55296 <=? c)%N && (c <? 57344)%N) = false).
  { apply andb_false_iff. right. apply N.ltb_ge. lia. }
  rewrite Hsur. simpl. rewrite andb_true_r.
  destruct (c <? 1114112)%N; split; eauto.
  - discriminate.
  - intros [b Hb]. discriminate.
Qed.

(** Well-formed text always encodes. *)
Lemma encode_utf8_total (s : str) :
  well_formed s = true -> exists b, encode_utf8 s = Some b.
Proof.
  induction s as [|c s IH]; simpl; [eauto|].
  intros H. apply andb_true_iff in H. destruct H as [Hc Hs].
  apply encode_utf8_char_scalar in Hc. destruct Hc as [bc ->].
  destruct (IH Hs) as [bs ->]. eauto.
Qed.

Lemma hex_byte_lower (b : Byte.byte) :
  forallb is_lower_hex (hex_byte b) = true.
Proof. destruct b; vm_compute; reflexivity. Qed.

Lemma hex_byte_unhex (b : Byte.byte) :
  unhex (hex_byte b) = [b].
Proof. destruct b; vm_compute; reflexivity. Qed.

Lemma hex_byte_encode (b : Byte.byte) :
  encode_utf8 (hex_byte b) = Some (map byte_of_N (hex_byte b)).
Proof. destruct b; vm_compute; reflexivity. Qed.

Lemma hex_byte_no_nul (b : Byte.byte) :
  existsb (Byte.eqb Byte.x00) (map byte_of_N (hex_byte b)) = false.
Proof. destruct b; vm_compute; reflexivity. Qed.

Lemma hexdigest_cons (b : Byte.byte) (d : bytes) :
  hexdigest (b :: d) = hex_byte b ++ hexdigest d.
Proof. reflexivity. Qed.

Lemma hexdigest_length (d : bytes) :
  List.length (hexdigest d) = (2 * List.length d)%nat.
Proof.
  induction d as [|b d IH]; [reflexivity|].
  rewrite hexdigest_cons, length_app, IH. simpl. lia.
Qed.

Lemma hexdigest_lower (d : bytes) :
  forallb is_lower_hex (hexdigest d) = true.
Proof.
  induction d as [|b d IH]; [reflexivity|].
  rewrite hexdigest_cons, forallb_app, IH, hex_byte_lower. reflexivity.
Qed.

Lemma hexdigest_unhex (d : bytes) : unhex (hexdigest d) = d.
Proof.
  induction d as [|b d IH]; [reflexivity|].
  rewrite hexdigest_cons.
  pose proof (hex_byte_unhex b) as Hb. unfold hex_byte in *.
  simpl in *. injection Hb as Hb. rewrite Hb, IH. reflexivity.
Qed.

Lemma hexdigest_encode (d : bytes) :
  encode_utf8 (hexdigest d) = Some (map byte_of_N (hexdigest d)).
Proof.
  induction d as [|b d IH]; [reflexivity|].
  rewrite hexdigest_cons, encode_utf8_app, IH, hex_byte_encode, map_app.
  reflexivity.
Qed.

Lemma hexdigest_no_nul (d : bytes) :
  ~ In Byte.x00 (map byte_of_N (hexdigest d)).
Proof.
  induction d as [|b d IH]; [simpl; tauto|].
  rewrite hexdigest_cons, map_app.
  intros Hin. apply in_app_or in Hin. destruct Hin as [Hin|Hin]; [|auto].
  pose proof (hex_byte_no_nul b) as Hb.
  assert (Hex : existsb (Byte.eqb Byte.x00) (map byte_of_N (hex_byte b)) = true).
  { apply existsb_exists. exists Byte.x00. split; [exact Hin | reflexivity]. }
  congruence.
Qed.

Section Hashes.

Variable E : env.

(** How [generate_launcher_hash] runs on well-formed text. *)
Lemma generate_launcher_hash_run (username0 password0 : str) (w : world)
    (u8 p8 : bytes) :
  encode_utf8 username0 = Some u8 ->
  encode_utf8 password0 = Some p8 ->
  generate_launcher_hash E username0 password0 w =
  let data := map byte_of_N (hexdigest (sha256 E (u8 ++ p8))) in
  let salt := bcrypt_gensalt E 12 (blit "2a") (urandom E (rand_calls w)) in
  (match bcrypt_hashpw E data salt with
   | Some hashed => Ok hashed
   | None => Raise ValueError
   end,
   set_rand_calls w (S (rand_calls w))).
Proof.
  intros Hu Hp. unfold generate_launcher_hash, bind, str_encode.
  rewrite encode_utf8_app, Hu, Hp. unfold ret at 1.
  rewrite hexdigest_encode. unfold ret at 1.
  unfold gensalt, hashpw. cbv zeta.
  destruct (bcrypt_hashpw E _ _); reflexivity.
Qed.

(** How [generate_testclient_hash] runs on well-formed text. *)
Lemma generate_testclient_hash_run (password0 : str) (w : world) (p8 : bytes) :
  encode_utf8 password0 = Some p8 ->
  generate_testclient_hash E password0 w =
  let salt := bcrypt_gensalt E 12 (blit "2a") (urandom E (rand_calls w)) in
  (match bcrypt_hashpw E p8 salt with
   | Some hashed => Ok hashed
   | None => Raise ValueError
   end,
   set_rand_calls w (S (rand_calls w))).
Proof.
  intros Hp. unfold generate_testclient_hash, bind, str_encode.
  rewrite Hp. unfold ret at 1. unfold gensalt, hashpw. cbv zeta.
  destruct (bcrypt_hashpw E _ _); reflexivity.
Qed.

End Hashes.

(** C3, as amended: on a well-formed password,
    [generate_testclient_hash] hands bcrypt the UTF-8 bytes of the
    plaintext itself and a salt generated with 12 rounds and prefix [2a],
    and its outcome is bcrypt's: the hash when bcrypt accepts the
    password, [ValueError] and no hash when it does not.  A hash that is
    returned verifies against those bytes, given that bcrypt verifies what
    it hashes; and one is returned for every password of at most 72 bytes
    without NUL, which every bcrypt accepts. *)
Theorem generate_testclient_hash_verifies (E : env) (password0 : str)
    (w : world) :
  well_formed password0 = true ->
  (forall data salt hashed,
      bcrypt_hashpw E data salt = Some hashed ->
      bcrypt_checkpw E data hashed = true) ->
  exists p8,
    encode_utf8 password0 = Some p8
    /\ (forall hashed w',
           generate_testclient_hash E password0 w = (Ok hashed, w') ->
           bcrypt_hashpw E p8
             (bcrypt_gensalt E 12 (blit "2a") (urandom E (rand_calls w)))
           = Some hashed
           /\ bcrypt_checkpw E p8 hashed = true)
    /\ (forall hashed,
           bcrypt_hashpw E p8
             (bcrypt_gensalt E 12 (blit "2a") (urandom E (rand_calls w)))
           = Some hashed ->
           generate_testclient_hash E password0 w
           = (Ok hashed, set_rand_calls w (S (rand_calls w))))
    /\ (bcrypt_hashpw E p8
          (bcrypt_gensalt E 12 (blit "2a") (urandom E (rand_calls w)))
        = None ->
        generate_testclient_hash E password0 w
        = (Raise ValueError, set_rand_calls w (S (rand_calls w))))
    /\ ((forall data seed,
            (List.length data <= 72)%nat -> ~ In Byte.x00 data ->
            bcrypt_hashpw E data (bcrypt_gensalt E 12 (blit "2a") seed)
            <> None) ->
        (List.length p8 <= 72)%nat -> ~ In Byte.x00 p8 ->
        exists hashed,
          generate_testclient_hash E password0 w
          = (Ok hashed, set_rand_calls w (S (rand_calls w)))
          /\ bcrypt_checkpw E p8 hashed = true).
Proof.
  intros Hwf Hcheck.
  destruct (encode_utf8_total _ Hwf) as [p8 Hp8].
  exists p8. split; [exact Hp8|].
  rewrite (generate_testclient_hash_run E _ w _ Hp8). cbv zeta.
  split; [|split; [|split]].
  - intros hashed w'.
    destruct (bcrypt_hashpw E p8 _) as [h|] eqn:Hh; intros H; inversion H.
    subst. split; [reflexivity|]. eapply Hcheck; eauto.
  - intros hashed ->. reflexivity.
  - intros ->. reflexivity.
  - intros Haccept Hlen Hnul.
    destruct (bcrypt_hashpw E p8 _) as [h|] eqn:Hh.
    + exists h. split; [reflexivity|]. eapply Hcheck; eauto.
    + exfalso. eapply Haccept; eauto.
Qed.

(* ================================================================== *)
(** ** The controller *)
(* ================================================================== *)

Lemma same_data_refl (w : world) : same_data w w.
Proof. repeat split; reflexivity. Qed.

Lemma same_data_trans (a b c : world) :
  same_data a b -> same_data b c -> same_data a c.
Proof. intros (H1 & H2 & H3) (H4 & H5 & H6). repeat split; congruence. Qed.

Lemma same_data_store (w w' : world) : same_data w w' -> same_store w w'.
Proof. intros (H1 & _ & H3). split; assumption. Qed.

Lemma input_same_data : preserves same_data input.
Proof.
  intros w r w'. unfold input.
  destruct (stdin w) as [|[s|] rest]; intros H; inversion H; subst;
    repeat split; reflexivity.
Qed.

Lemma get_password_input_same_data (min_length : nat) :
  preserves same_data (get_password_input min_length).
Proof.
  unfold get_password_input, getpass. pose proof input_same_data.
  frame_with same_data_refl same_data_trans.
Qed.

Lemma confirm_password_same_data (original : str) (max_attempts : nat) :
  preserves same_data (confirm_password original max_attempts).
Proof.
  unfold confirm_password, getpass. pose proof input_same_data.
  frame_with same_data_refl same_data_trans.
Qed.

Lemma ask_password_same_data : preserves same_data ask_password.
Proof.
  unfold ask_password.
  pose proof (get_password_input_same_data 6).
  pose proof confirm_password_same_data.
  frame_with same_data_refl same_data_trans.
Qed.

(** The password that leaves the loop of steps 2 and 3 has at least 6
    characters. *)
Lemma password_loop_length (w w' : world) (p : str) :
  while_true ask_password w = (Ok p, w') -> (6 <= List.length p)%nat.
Proof.
  revert p w'.
  apply (while_true_ind ask_password
           (fun w out => forall p w', out = (Ok p, w') ->
                                      (6 <= List.length p)%nat)).
  - apply ask_password_consuming.
  - intros w0 a w1. unfold ask_password. unfold bind at 1.
    destruct (get_password_input 6 w0) as [[p0|e] w2] eqn:Hg; [|discriminate].
    apply get_password_input_ok in Hg. destruct Hg as (_ & Hlen & _).
    unfold bind.
    destruct (confirm_password p0 3 w2) as [[[c|]|e] w3];
      unfold ret; intros H; inversion H; subst.
    intros p w' Hp. inversion Hp; subst. exact Hlen.
  - intros w0 e w1 _ p w' Hp. discriminate.
  - intros w0 w1 out _ IH. exact IH.
Qed.

Section Controller.

Variable E : env.

Lemma cursor_execute_same_store (effect : list account -> list account) :
  preserves same_store (cursor_execute E effect).
Proof.
  intros w r w'. unfold cursor_execute.
  destruct (db_fault E (db_ops w)); intros H; inversion H; subst;
    split; reflexivity.
Qed.

Lemma cursor_execute_no_unread (effect : list account -> list account) :
  no_unread (cursor_execute E effect).
Proof.
  intros w r w'. unfold cursor_execute.
  destruct (db_fault E (db_ops w)); intros H; inversion H; subst; simpl; lia.
Qed.

Lemma find_account_same_store (s : str) :
  preserves same_store (find_account E s).
Proof.
  unfold find_account. pose proof cursor_execute_same_store.
  apply (preserves_bind _ same_store_trans); [auto|].
  intros _ w r w'.
  destruct (select_account E (session w) s); intros H0; inversion H0; subst;
    apply same_store_refl.
Qed.

Lemma find_account_no_unread (s : str) : no_unread (find_account E s).
Proof.
  unfold find_account, no_unread.
  apply preserves_bind.
  - intros a b c; lia.
  - apply cursor_execute_no_unread.
  - intros _ w r w'.
    destruct (select_account E (session w) s); intros H0; inversion H0; subst;
      lia.
Qed.

(** What a successful lookup returns comes from a row of the session's
    table. *)
Lemma find_account_ok (s : str) (w w' : world) (found : option (Z * str * bool)) :
  find_account E s w = (Ok found, w') ->
  session w' = session w
  /\ found = option_map (fun r => (id r, username r, inactive r))
               (select_account E (session w) s).
Proof.
  unfold find_account, bind, cursor_execute.
  destruct (db_fault E (db_ops w)) eqn:Hf; [discriminate|].
  cbn [session set_session set_db_ops].
  destruct (select_account E (session w) s); intros H; inversion H; subst;
    split; reflexivity.
Qed.

Lemma ask_username_same_store : preserves same_store (ask_username E).
Proof.
  unfold ask_username.
  pose proof input_same_store. pose proof find_account_same_store.
  frame_with same_store_refl same_store_trans.
Qed.

Lemma ask_username_consuming : consuming (ask_username E).
Proof.
  intros w w'. unfold ask_username. unfold bind at 1.
  destruct (input w) as [[answer|e] w1] eqn:Hi; [|discriminate].
  apply input_ok in Hi. destruct Hi as [Hs _].
  assert (Hlt : (List.length (stdin w1) < List.length (stdin w))%nat)
    by (rewrite Hs; simpl; lia).
  destruct (is_empty (strip answer)).
  - unfold ret. intros H; inversion H; subst. exact Hlt.
  - unfold bind at 1.
    destruct (find_account E (strip answer) w1) as [[[found|]|e] w2] eqn:Hf.
    + discriminate.
    + apply find_account_no_unread in Hf. unfold bind.
      destruct (input w2) as [[retry|e] w3] eqn:Hi2; [|discriminate].
      apply input_no_unread in Hi2.
      destruct (negb (is_empty (py_lower E (strip retry)))
                && first_is "n" (py_lower E (strip retry)));
        unfold sys_exit, raise, ret; intros H; inversion H; subst. lia.
    + discriminate.
Qed.

Lemma ask_username_session (w w' : world) (r : option (Z * str * bool)) :
  ask_username E w = (Ok r, w') ->
  session w' = session w
  /\ forall found, r = Some found ->
       exists row, In row (session w)
                   /\ found = (id row, username row, inactive row).
Proof.
  unfold ask_username. unfold bind at 1.
  destruct (input w) as [[answer|e] w1] eqn:Hi; [|discriminate].
  destruct (input_same_data _ _ _ Hi) as (_ & Hs1 & _).
  destruct (is_empty (strip answer)).
  - unfold ret. intros H; inversion H; subst. split; [exact Hs1|].
    intros found Hf. discriminate.
  - unfold bind at 1.
    destruct (find_account E (strip answer) w1) as [[[found|]|e] w2] eqn:Hf;
      [| |discriminate]; apply find_account_ok in Hf; destruct Hf as [Hs2 Hsel].
    + unfold ret. intros H; inversion H; subst r w2.
      split; [congruence|]. intros found0 Heq. inversion Heq; subst found0.
      destruct (select_account E (session w1) (strip answer)) as [row|] eqn:Hrow;
        [|discriminate].
      apply select_account_some in Hrow. destruct Hrow as [Hin _].
      exists row. split; [rewrite <- Hs1; exact Hin|].
      simpl in Hsel. congruence.
    + unfold bind.
      destruct (input w2) as [[retry|e] w3] eqn:Hi2; [|discriminate].
      destruct (input_same_data _ _ _ Hi2) as (_ & Hs3 & _).
      destruct (negb (is_empty (py_lower E (strip retry)))
                && first_is "n" (py_lower E (strip retry)));
        unfold sys_exit, raise, ret; intros H; inversion H; subst.
      split; [congruence|]. intros found0 Heq. discriminate.
Qed.

(** The account that leaves the loop of step 1 is a row of the session's
    table: its id, its stored user name, its inactive flag. *)
Lemma find_loop_row (w w' : world) (found : Z * str * bool) :
  while_true (ask_username E) w = (Ok found, w') ->
  session w' = session w
  /\ exists row, In row (session w)
                 /\ found = (id row, username row, inactive row).
Proof.
  revert found w'.
  apply (while_true_ind (ask_username E)
           (fun w out => forall found w', out = (Ok found, w') ->
              session w' = session w
              /\ exists row, In row (session w)
                   /\ found = (id row, username row, inactive row))).
  - apply ask_username_consuming.
  - intros w0 a w1 Hb found0 w2 Heq. inversion Heq; subst.
    apply ask_username_session in Hb. destruct Hb as [Hs Hrow].
    split; [exact Hs|]. apply Hrow. reflexivity.
  - intros w0 e w1 _ found0 w2 Heq. discriminate.
  - intros w0 w1 out Hb IH found0 w2 Heq.
    apply ask_username_session in Hb. destruct Hb as [Hs _].
    destruct (IH found0 w2 Heq) as [Hs2 Hrow].
    rewrite Hs in *. split; [exact Hs2 | exact Hrow].
Qed.

Lemma dry_run_confirm_same_data (is_inactive : bool) :
  preserves same_data (dry_run_confirm E is_inactive).
Proof.
  unfold dry_run_confirm. pose proof input_same_data.
  frame_with same_data_refl same_data_trans.
Qed.

Lemma gensalt_same_data (rounds : N) (prefix : bytes) :
  preserves same_data (gensalt E rounds prefix).
Proof.
  intros w r w'. unfold gensalt. intros H; inversion H; subst.
  repeat split; reflexivity.
Qed.

Lemma str_encode_same_data (s : str) : preserves same_data (str_encode s).
Proof.
  unfold str_encode. frame_with same_data_refl same_data_trans.
Qed.

Lemma hashpw_same_data (data salt : bytes) :
  preserves same_data (hashpw E data salt).
Proof.
  unfold hashpw. frame_with same_data_refl same_data_trans.
Qed.

Lemma generate_launcher_hash_same_data (username0 password0 : str) :
  preserves same_data (generate_launcher_hash E username0 password0).
Proof.
  unfold generate_launcher_hash.
  pose proof str_encode_same_data. pose proof gensalt_same_data.
  pose proof hashpw_same_data.
  frame_with same_data_refl same_data_trans.
Qed.

Lemma generate_testclient_hash_same_data (password0 : str) :
  preserves same_data (generate_testclient_hash E password0).
Proof.
  unfold generate_testclient_hash.
  pose proof str_encode_same_data. pose proof gensalt_same_data.
  pose proof hashpw_same_data.
  frame_with same_data_refl same_data_trans.
Qed.

End Controller.

Section Outcome.

Variable E : env.

Lemma connect_attempts_ok (remaining : nat) :
  forall host port user database passwd w w',
    connect_attempts E remaining host port user database passwd w = (Ok tt, w') ->
    session w' = accounts w' /\ conn_open w' = true.
Proof.
  induction remaining as [|remaining IH];
    intros host port user database passwd w w'.
  - simpl. discriminate.
  - rewrite connect_attempts_step. cbv zeta.
    destruct (pg_connect E _ _) as [|e|].
    + intros H; inversion H; subst. split; reflexivity.
    + destruct (classify (py_lower E e)).
      * destruct (stdin w) as [|[answer|] rest]; try discriminate. apply IH.
      * destruct (stdin w) as [|[answer|] rest]; try discriminate. apply IH.
      * discriminate.
      * apply IH.
    + discriminate.
Qed.

(** Steps 5 and 6: either nothing is committed and nothing is logged, or
    the reset went through. *)
Lemma reset_account_outcome (row : account) (p : str) (w w' : world)
    (r : res unit) :
  reset_account E (id row) (username row) p w = (r, w') ->
  session w = accounts w ->
  (r <> Ok tt /\ same_store w w') \/ (r = Ok tt /\ reset_done E w w' row p).
Proof.
  intros Hrun Hclean. revert Hrun. unfold reset_account. unfold bind at 1.
  destruct (generate_launcher_hash E (username row) p w)
    as [[lh|e] wt] eqn:Hl.
  2:{ intros H; inversion H; subst. left. split; [discriminate|].
      apply same_data_store.
      eapply generate_launcher_hash_same_data; eauto. }
  destruct (generate_launcher_hash_same_data E _ _ _ _ _ Hl) as (Ha1 & Hs1 & Hu1).
  unfold bind at 1.
  destruct (generate_testclient_hash E p wt) as [[th|e] wu] eqn:Ht.
  2:{ intros H; inversion H; subst. left. split; [discriminate|].
      destruct (generate_testclient_hash_same_data E _ _ _ _ Ht)
        as (Ha2 & _ & Hu2).
      split; congruence. }
  destruct (generate_testclient_hash_same_data E _ _ _ _ Ht) as (Ha2 & Hs2 & Hu2).
  unfold bind at 1.
  destruct (update_password_cases E (id row) lh th wu)
    as (ok & wc & Hup & Haud & Htrue & Hfalse & _).
  rewrite Hup. destruct ok.
  - destruct (Htrue eq_refl) as (p1 & p2 & Hd1 & Hd2 & Hacc & _).
    unfold audit_log_info. intros H; inversion H; subst. right.
    split; [reflexivity|].
    exists lh, th, w, wt, wu, wc, p1, p2.
    repeat split; auto.
    + rewrite Hacc. f_equal. congruence.
    + congruence.
  - destruct (Hfalse eq_refl) as [Hacc _].
    unfold sys_exit, raise. intros H; inversion H; subst. left.
    split; [discriminate|]. split; congruence.
Qed.

(** What [main] does once connected: either nothing is committed and
    nothing is logged, or one account of the table was reset. *)
Lemma main_body_outcome (w w' : world) (r : res unit) :
  main_body E w = (r, w') ->
  session w = accounts w ->
  (r <> Ok tt /\ same_store w w')
  \/ (r = Ok tt
      /\ exists row p,
           In row (accounts w) /\ (6 <= List.length p)%nat
           /\ reset_done E w w' row p).
Proof.
  intros Hrun Hclean. revert Hrun. unfold main_body. unfold bind at 1.
  destruct (while_true (ask_username E) w) as [[found|e] w1] eqn:H1.
  2:{ intros H; inversion H; subst. left. split; [discriminate|].
      eapply (preserves_while_true _ same_store_refl same_store_trans);
        [apply ask_username_same_store | eauto]. }
  assert (Hst1 : same_store w w1).
  { eapply (preserves_while_true _ same_store_refl same_store_trans);
      [apply ask_username_same_store | eauto]. }
  apply find_loop_row in H1. destruct H1 as (Hs1 & row & Hin & ->).
  unfold bind at 1.
  destruct (while_true ask_password w1) as [[p|e] w2] eqn:H2.
  2:{ intros H; inversion H; subst. left. split; [discriminate|].
      eapply same_store_trans; [exact Hst1|]. apply same_data_store.
      eapply (preserves_while_true _ same_data_refl same_data_trans);
        [apply ask_password_same_data | eauto]. }
  assert (Hd2 : same_data w1 w2).
  { eapply (preserves_while_true _ same_data_refl same_data_trans);
      [apply ask_password_same_data | eauto]. }
  apply password_loop_length in H2.
  unfold bind at 1.
  destruct (dry_run_confirm E (inactive row) w2) as [[u|e] w3] eqn:H3.
  2:{ intros H; inversion H; subst. left. split; [discriminate|].
      eapply same_store_trans; [exact Hst1|]. apply same_data_store.
      eapply same_data_trans; [exact Hd2|].
      eapply dry_run_confirm_same_data; eauto. }
  pose proof (dry_run_confirm_same_data E _ _ _ _ H3) as Hd3.
  pose proof (same_data_trans _ _ _ Hd2 Hd3) as Hd13.
  destruct Hd13 as (Ha13 & Hs13 & Hu13). destruct Hst1 as [Ha1 Hu1].
  assert (Hclean3 : session w3 = accounts w3) by congruence.
  intros Hreset.
  destruct (reset_account_outcome row p w3 w' r Hreset Hclean3)
    as [[Hr [Ha Hu]] | [Hr Hdone]].
  - left. split; [exact Hr|]. split; congruence.
  - right. split; [exact Hr|]. exists row, p.
    split; [congruence|]. split; [exact H2|].
    destruct Hdone as (lh & th & wl & wt & wu & wc & p1 & p2
                       & (G0a & G0s & G0u) & G1 & G2 & G3 & G4 & G5
                       & (G6a & G6u) & G7 & G8).
    exists lh, th, wl, wt, wu, wc, p1, p2. repeat split; auto; congruence.
Qed.

(** [main], once the connection is there. *)
Lemma main_connected (a : args) (w wc : world) :
  connect_database E (arg_host a) (arg_port a) (arg_user a) (arg_db a) None w
  = (Ok tt, wc) ->
  main E a w =
  match main_body E wc with
  | (r, w') => (r, set_conn_open (set_session w' (accounts w')) false)
  end.
Proof.
  intros Hc. unfold main. unfold bind, try_except. rewrite Hc.
  unfold try_finally, conn_close.
  destruct (main_body E wc) as [r w']. reflexivity.
Qed.

(** [main], when no connection is made. *)
Lemma main_not_connected (a : args) (w wc : world) (e : exn) :
  connect_database E (arg_host a) (arg_port a) (arg_user a) (arg_db a) None w
  = (Raise e, wc) ->
  main E a w = (Raise (if is_Exception e then SystemExit 1 else e), wc).
Proof.
  intros Hc. unfold main. unfold bind, try_except. rewrite Hc.
  destruct (is_Exception e); reflexivity.
Qed.

(** A whole run: either the table and the audit log are as they were, or
    the exit status is 0 and one account of the table was reset. *)
Lemma run_outcome (a : args) (w w' : world) (code : Z) :
  run E a w = (code, w') ->
  same_store w w'
  \/ (code = 0%Z
      /\ exists row p,
           In row (accounts w) /\ (6 <= List.length p)%nat
           /\ reset_done E w w' row p).
Proof.
  unfold run.
  destruct (connect_database E (arg_host a) (arg_port a) (arg_user a)
              (arg_db a) None w) as [[[]|e] wc] eqn:Hc.
  - rewrite (main_connected a w wc Hc).
    pose proof (connect_attempts_same_store E 3 _ _ _ _ _ _ _ _ Hc) as [Ha Hu].
    destruct (connect_attempts_ok 3 _ _ _ _ _ _ _ Hc) as [Hclean _].
    destruct (main_body E wc) as [r wb] eqn:Hb.
    intros H; inversion H; subst code w'; clear H.
    destruct (main_body_outcome wc wb r Hb Hclean)
      as [[Hr [Ha' Hu']] | [Hr (row & p & Hin & Hlen & Hdone)]].
    + left. split; simpl; congruence.
    + right. subst r. split; [reflexivity|]. exists row, p.
      split; [congruence|]. split; [exact Hlen|].
      destruct Hdone as (lh & th & wl & wt & wu & wc' & p1 & p2
                         & (G0a & G0s & G0u) & G1 & G2 & G3 & G4 & G5
                         & (G6a & G6u) & G7 & G8).
      exists lh, th, wl, wt, wu, wc', p1, p2.
      repeat split; auto; simpl; congruence.
  - rewrite (main_not_connected a w wc e Hc).
    intros H; inversion H; subst. left.
    exact (connect_attempts_same_store E 3 _ _ _ _ _ _ _ _ Hc).
Qed.

End Outcome.

(* ================================================================== *)
(** ** The claims about whole runs *)
(* ================================================================== *)

Lemma input_next (w : world) (s : str) (rest : list event) :
  stdin w = Line s :: rest -> input w = (Ok s, set_stdin w rest).
Proof. intros H. unfold input. rewrite H. reflexivity. Qed.

Lemma first_is_nonempty (ch : string) (s : str) :
  first_is ch s = true -> is_empty s = false.
Proof. destruct s; [discriminate | reflexivity]. Qed.


Lemma dry_run_confirm_answer (E : env) (ina : bool) (w : world)
    (answer : str) (rest : list event) :
  stdin w = Line answer :: rest ->
  dry_run_confirm E ina w =
  let confirm := py_lower E (strip answer) in
  if (if ina then is_empty confirm || negb (first_is "y" confirm)
      else negb (is_empty confirm) && first_is "n" confirm)
  then (Raise (SystemExit 0), set_stdin w rest)
  else (Ok tt, set_stdin w rest).
Proof.
  intros Hin. unfold dry_run_confirm. cbv zeta.
  destruct ina; unfold bind; rewrite (input_next _ _ _ Hin);
    match goal with |- context [if ?c then _ else _] => destruct c end;
    reflexivity.
Qed.


(** The log after steps 5 and 6 is the log before, unless the call of
    [update_password] in that very run returned [True]. *)
Lemma reset_account_audit (E : env) (i : Z) (u p : str) (w w' : world)
    (r : res unit) :
  reset_account E i u p w = (r, w') ->
  (r <> Ok tt /\ audit w' = audit w)
  \/ exists launcher_hash testclient_hash wt wu wc,
       generate_launcher_hash E u p w = (Ok launcher_hash, wt)
       /\ generate_testclient_hash E p wt = (Ok testclient_hash, wu)
       /\ update_password E i launcher_hash testclient_hash wu = (Ok true, wc)
       /\ r = Ok tt
       /\ w' = set_audit wc (audit wc ++ [audit_record E i u])
       /\ audit wc = audit w.
Proof.
  unfold reset_account. unfold bind at 1.
  destruct (generate_launcher_hash E u p w) as [[lh|e] wt] eqn:Hl.
  2:{ intros H; inversion H; subst. left. split; [discriminate|].
      eapply generate_launcher_hash_same_data; eauto. }
  destruct (generate_launcher_hash_same_data E _ _ _ _ _ Hl) as (_ & _ & Hu1).
  unfold bind at 1.
  destruct (generate_testclient_hash E p wt) as [[th|e] wu] eqn:Ht.
  2:{ intros H; inversion H; subst. left. split; [discriminate|].
      destruct (generate_testclient_hash_same_data E _ _ _ _ Ht)
        as (_ & _ & Hu2). congruence. }
  destruct (generate_testclient_hash_same_data E _ _ _ _ Ht) as (_ & _ & Hu2).
  unfold bind at 1.
  destruct (update_password_cases E i lh th wu)
    as (ok & wc & Hup & Haud & _).
  rewrite Hup. destruct ok.
  - unfold audit_log_info. intros H; inversion H; subst. right.
    exists lh, th, wt, wu, wc. repeat split; auto. congruence.
  - unfold sys_exit, raise. intros H; inversion H; subst. left.
    split; [discriminate | congruence].
Qed.

(** C9: a run leaves the audit log as it was unless it resets an account:
    the log grows only at the end of a run with exit status 0 in which
    [update_password] returned [True], never after a failed update, an
    abort or a fatal error.  What is appended is then a single record made
    of the time stamp, the account id and the stored exact-case user name
    of the row; the password and the two hashes are no part of it. *)
Theorem audit_log_only_on_success (E : env) :
  (forall (a : args) (w w' : world) (code : Z),
      run E a w = (code, w') ->
      audit w' = audit w
      \/ (code = 0%Z
          /\ exists row p,
               In row (accounts w)
               /\ reset_done E w w' row p
               /\ audit w'
                  = audit w
                    ++ [asctime E
                        ++ lit " - Password reset for account ID: "
                        ++ str_of_int (id row)
                        ++ lit ", username: " ++ username row]))
  /\ (forall (i : Z) (u p : str) (w w' : world) (r : res unit),
        reset_account E i u p w = (r, w') ->
        (r <> Ok tt /\ audit w' = audit w)
        \/ exists launcher_hash testclient_hash wt wu wc,
             generate_launcher_hash E u p w = (Ok launcher_hash, wt)
             /\ generate_testclient_hash E p wt = (Ok testclient_hash, wu)
             /\ update_password E i launcher_hash testclient_hash wu
                = (Ok true, wc)
             /\ r = Ok tt
             /\ w' = set_audit wc (audit wc ++ [audit_record E i u])
             /\ audit wc = audit w).
Proof.
  split.
  - intros a w w' code Hrun.
    destruct (run_outcome E a w w' code Hrun)
      as [[_ Hu] | (Hcode & row & p & Hin & _ & Hdone)].
    + left. exact Hu.
    + right. split; [exact Hcode|]. exists row, p.
      split; [exact Hin|]. split; [exact Hdone|].
      destruct Hdone as (lh & th & wl & wt & wu & wc & p1 & p2
                         & _ & _ & _ & _ & _ & _ & (_ & G6u) & _ & G8).
      rewrite G8, G6u. reflexivity.
  - intros i u p w w' r. apply reset_account_audit.
Qed.

(** C2: on well-formed text [generate_launcher_hash] hands bcrypt the
    lowercase hexadecimal rendering of the SHA-256 digest of the UTF-8
    bytes of [username + password], with a salt generated for 12 rounds
    and prefix [2a], and returns what bcrypt returns; with 32-byte digests
    the input is 64 hexadecimal digits, which every bcrypt accepts, so a
    hash is returned.  In [main] the user name it is called on is the
    stored user name of the row that was found: whenever a run changes
    the table or the log, the launcher hash it committed was derived from
    that stored name. *)
Theorem generate_launcher_hash_spec (E : env) :
  (forall (username0 password0 : str) (w : world),
      well_formed username0 = true ->
      well_formed password0 = true ->
      exists u8 p8,
        encode_utf8 username0 = Some u8
        /\ encode_utf8 password0 = Some p8
        /\ encode_utf8 (username0 ++ password0) = Some (u8 ++ p8)
        /\ let digest := sha256 E (u8 ++ p8) in
           let hex := hexdigest digest in
           let data := map byte_of_N hex in
           let salt :=
             bcrypt_gensalt E 12 (blit "2a") (urandom E (rand_calls w)) in
           encode_utf8 hex = Some data
           /\ forallb is_lower_hex hex = true
           /\ List.length hex = (2 * List.length digest)%nat
           /\ unhex hex = digest
           /\ (forall hashed w',
                  generate_launcher_hash E username0 password0 w
                  = (Ok hashed, w') ->
                  bcrypt_hashpw E data salt = Some hashed)
           /\ (forall hashed,
                  bcrypt_hashpw E data salt = Some hashed ->
                  generate_launcher_hash E username0 password0 w
                  = (Ok hashed, set_rand_calls w (S (rand_calls w))))
           /\ ((forall m, List.length (sha256 E m) = 32%nat) ->
               (forall input seed,
                   (List.length input <= 72)%nat -> ~ In Byte.x00 input ->
                   bcrypt_hashpw E input
                     (bcrypt_gensalt E 12 (blit "2a") seed) <> None) ->
               exists hashed,
                 bcrypt_hashpw E data salt = Some hashed
                 /\ generate_launcher_hash E username0 password0 w
                    = (Ok hashed, set_rand_calls w (S (rand_calls w)))))
  /\ (forall (a : args) (w w' : world) (code : Z),
        run E a w = (code, w') ->
        (accounts w' = accounts w /\ audit w' = audit w)
        \/ exists row p,
             In row (accounts w) /\ reset_done E w w' row p).
Proof.
  split.
  - intros username0 password0 w Hu Hp.
    destruct (encode_utf8_total _ Hu) as [u8 Hu8].
    destruct (encode_utf8_total _ Hp) as [p8 Hp8].
    exists u8, p8. split; [exact Hu8|]. split; [exact Hp8|].
    split; [rewrite encode_utf8_app, Hu8, Hp8; reflexivity|].
    cbv zeta.
    rewrite (generate_launcher_hash_run E _ _ w _ _ Hu8 Hp8). cbv zeta.
    split; [apply hexdigest_encode|].
    split; [apply hexdigest_lower|].
    split; [apply hexdigest_length|].
    split; [apply hexdigest_unhex|].
    split; [|split].
    + intros hashed w'.
      destruct (bcrypt_hashpw E _ _) as [h|]; intros H; inversion H.
      reflexivity.
    + intros hashed ->. reflexivity.
    + intros Hlen Haccept.
      destruct (bcrypt_hashpw E _ _) as [h|] eqn:Hh.
      * exists h. split; reflexivity.
      * exfalso. eapply Haccept; [| |exact Hh].
        -- rewrite length_map, hexdigest_length, Hlen. simpl. lia.
        -- apply hexdigest_no_nul.
  - intros a w w' code Hrun.
    destruct (run_outcome E a w w' code Hrun)
      as [Hsame | (_ & row & p & Hin & _ & Hdone)].
    + left. exact Hsame.
    + right. exists row, p. split; assumption.
Qed.

(* ================================================================== *)
(** ** The fuel of the loops is never used up *)
(* ================================================================== *)

Lemma fuel_safe_ret {A} (a : A) : fuel_safe (ret a).
Proof. intros w r w' H. inversion H. discriminate. Qed.

Lemma fuel_safe_raise {A} (e : exn) : e <> OutOfFuel -> fuel_safe (@raise A e).
Proof. intros He w r w' H. inversion H. congruence. Qed.

Lemma fuel_safe_bind {A B} (m : M A) (k : A -> M B) :
  fuel_safe m -> (forall a, fuel_safe (k a)) -> fuel_safe (bind m k).
Proof.
  intros Hm Hk w r w'. unfold bind.
  destruct (m w) as [[a|e] w1] eqn:Hmw.
  - apply Hk.
  - intros H. inversion H; subst. intros Hbad. inversion Hbad; subst.
    exact (Hm _ _ _ Hmw eq_refl).
Qed.

Lemma fuel_safe_try_except {A} (m : M A) caught (handler : exn -> M A) :
  fuel_safe m -> (forall e, fuel_safe (handler e)) ->
  fuel_safe (try_except m caught handler).
Proof.
  intros Hm Hh w r w'. unfold try_except.
  destruct (m w) as [[a|e] w1] eqn:Hmw.
  - intros H. inversion H. discriminate.
  - destruct (caught e).
    + apply Hh.
    + intros H. inversion H; subst. eapply Hm; eauto.
Qed.

Lemma fuel_safe_try_finally {A} (m : M A) (cleanup : M unit) :
  fuel_safe m -> fuel_safe cleanup -> fuel_safe (try_finally m cleanup).
Proof.
  intros Hm Hc w r w'. unfold try_finally.
  destruct (m w) as [r1 w1] eqn:Hmw.
  destruct (cleanup w1) as [[u|e] w2] eqn:Hcw; intros H; inversion H; subst.
  - eapply Hm; eauto.
  - intros Hbad. inversion Hbad; subst. exact (Hc _ _ _ Hcw eq_refl).
Qed.

Lemma fuel_safe_while_true {A} (body : M (option A)) :
  consuming body -> fuel_safe body -> fuel_safe (while_true body).
Proof.
  intros Hc Hb w r w' Hrun.
  assert (H : fst (while_true body w) <> Raise OutOfFuel).
  { apply (while_true_ind body (fun _ out => fst out <> Raise OutOfFuel)).
    - exact Hc.
    - intros w0 a w1 _. discriminate.
    - intros w0 e w1 Hbody. simpl. intros Hbad. inversion Hbad; subst.
      exact (Hb _ _ _ Hbody eq_refl).
    - intros w0 w1 out _ IH. exact IH. }
  rewrite Hrun in H. exact H.
Qed.

Lemma fuel_safe_for_each {I A} (items : list I) (body : I -> M (option A)) :
  (forall i, fuel_safe (body i)) -> fuel_safe (for_each items body).
Proof.
  intros Hb. induction items as [|i items IH]; simpl.
  - apply fuel_safe_ret.
  - apply fuel_safe_bind; [apply Hb|].
    intros [a|]; [apply fuel_safe_ret | assumption].
Qed.

Lemma fuel_safe_input : fuel_safe input.
Proof.
  intros w r w'. unfold input.
  destruct (stdin w) as [|[s|] rest]; intros H; inversion H; discriminate.
Qed.

(** Fuel reasoning through the structure of a monadic term. *)
Ltac fuel_safe_tac :=
  repeat first
    [ assumption
    | match goal with H : _ |- _ => solve [apply H] end
    | apply fuel_safe_ret
    | apply fuel_safe_raise; discriminate
    | apply fuel_safe_input
    | apply fuel_safe_bind; [|intros ?]
    | apply fuel_safe_try_except; [|intros ?]
    | apply fuel_safe_try_finally
    | apply fuel_safe_for_each; intros ?
    | match goal with
      | |- fuel_safe (match ?x with _ => _ end) => destruct x
      | |- fuel_safe (if ?x then _ else _) => destruct x
      | |- fuel_safe (let _ := _ in _) => cbv zeta
      | |- fuel_safe (sys_exit _) => apply fuel_safe_raise; discriminate
      end ].

Section Fuel.

Variable E : env.

Lemma fuel_safe_get_password_input (min_length : nat) :
  fuel_safe (get_password_input min_length).
Proof.
  unfold get_password_input. apply fuel_safe_while_true.
  - apply password_round_consuming.
  - unfold getpass. fuel_safe_tac.
Qed.

Lemma fuel_safe_confirm_password (original : str) (max_attempts : nat) :
  fuel_safe (confirm_password original max_attempts).
Proof. unfold confirm_password, getpass. fuel_safe_tac. Qed.

Lemma fuel_safe_cursor_execute (effect : list account -> list account) :
  fuel_safe (cursor_execute E effect).
Proof.
  intros w r w'. unfold cursor_execute.
  destruct (db_fault E (db_ops w)); intros H; inversion H; discriminate.
Qed.

Lemma fuel_safe_find_account (s : str) : fuel_safe (find_account E s).
Proof.
  unfold find_account. apply fuel_safe_bind.
  - apply fuel_safe_cursor_execute.
  - intros _ w r w'.
    destruct (select_account E (session w) s); intros H; inversion H;
      discriminate.
Qed.

Lemma fuel_safe_connect_attempts (remaining : nat) :
  forall host port user database passwd,
    fuel_safe (connect_attempts E remaining host port user database passwd).
Proof.
  induction remaining as [|remaining IH]; intros; simpl.
  - fuel_safe_tac.
  - assert (Hc : forall params, fuel_safe (psycopg2_connect E params)).
    { intros params w r w'. unfold psycopg2_connect.
      destruct (pg_connect E _ _); intros H; inversion H; discriminate. }
    unfold getpass. fuel_safe_tac; apply IH.
Qed.

Lemma fuel_safe_update_password (i : Z) (lh th : bytes) :
  fuel_safe (update_password E i lh th).
Proof.
  intros w r w' H.
  destruct (update_password_cases E i lh th w) as (ok & w1 & Hrun & _).
  rewrite Hrun in H. inversion H. discriminate.
Qed.

Lemma fuel_safe_hash (data : M bytes) :
  fuel_safe data ->
  fuel_safe (d <- data ;; salt <- gensalt E 12 (blit "2a") ;; hashpw E d salt).
Proof.
  intros Hd. apply fuel_safe_bind; [exact Hd|]. intros d.
  apply fuel_safe_bind.
  - intros w r w' H. inversion H. discriminate.
  - intros salt. unfold hashpw. fuel_safe_tac.
Qed.

Lemma fuel_safe_str_encode (s : str) : fuel_safe (str_encode s).
Proof. unfold str_encode. fuel_safe_tac. Qed.

Lemma fuel_safe_main_body : fuel_safe (main_body E).
Proof.
  unfold main_body.
  apply fuel_safe_bind.
  { apply fuel_safe_while_true; [apply ask_username_consuming|].
    unfold ask_username. pose proof fuel_safe_find_account. fuel_safe_tac. }
  intros [[account_id exact_username] is_inactive].
  apply fuel_safe_bind.
  { apply fuel_safe_while_true; [apply ask_password_consuming|].
    unfold ask_password. pose proof fuel_safe_get_password_input.
    pose proof fuel_safe_confirm_password. fuel_safe_tac. }
  intros p. apply fuel_safe_bind.
  { unfold dry_run_confirm. fuel_safe_tac. }
  intros _. unfold reset_account.
  apply fuel_safe_bind.
  { unfold generate_launcher_hash. apply fuel_safe_bind.
    - apply fuel_safe_str_encode.
    - intros salted. cbv zeta. apply fuel_safe_hash, fuel_safe_str_encode. }
  intros lh. apply fuel_safe_bind.
  { unfold generate_testclient_hash.
    apply fuel_safe_hash, fuel_safe_str_encode. }
  intros th. apply fuel_safe_bind; [apply fuel_safe_update_password|].
  intros [|].
  - intros w r w' H. inversion H. discriminate.
  - fuel_safe_tac.
Qed.

(** The model's loops never stop for lack of fuel: whatever [main] does
    is what the script does. *)
Theorem main_never_out_of_fuel (a : args) : fuel_safe (main E a).
Proof.
  unfold main. apply fuel_safe_bind.
  - apply fuel_safe_try_except.
    + apply fuel_safe_connect_attempts.
    + intros e. fuel_safe_tac.
  - intros _. apply fuel_safe_try_finally.
    + apply fuel_safe_main_body.
    + intros w r w' H. inversion H. discriminate.
Qed.

End Fuel.

(* ================================================================== *)
(** ** The claims on concrete runs *)
(* ================================================================== *)

Local Open Scope string_scope.

(** The decoder undoes the encoder on one-, two-, three- and four-byte
    characters, and turns down what Python turns down. *)
Example utf8_round_trip :
  option_map decode_utf8 (encode_utf8 [65; 233; 8364; 128512; 1114111]%N)
  = Some (Some [65; 233; 8364; 128512; 1114111]%N).
Proof. reflexivity. Qed.

Example utf8_lone_surrogate : encode_utf8 [65; 55296]%N = None.
Proof. reflexivity. Qed.

Example utf8_rejects :
  map decode_utf8_N
    [[0xC0; 0x80]; [0xE0; 0x80; 0x80]; [0xED; 0xA0; 0x80];
     [0xF4; 0x90; 0x80; 0x80]; [0x80]; [0xE2; 0x82]; [0xFF]]%N
  = [None; None; None; None; None; None; None].
Proof. reflexivity. Qed.

Example strip_and_first :
  first_is "y" (Demo.ascii_lower (strip (lit "  Yes "))) = true
  /\ first_is "n" (Demo.ascii_lower (strip (lit "yes"))) = false
  /\ strip (lit "   ") = [].
Proof. repeat split; reflexivity. Qed.

Example classify_messages :
  classify (lit "fatal:  database xyz does not exist") = DbMissing
  /\ classify (lit "fatal:  password authentication failed for user") = AuthFailed
  /\ classify (lit "connection refused") = Refused
  /\ classify (lit "could not connect to server") = Refused
  /\ classify (lit "server closed the connection unexpectedly") = Unknown.
Proof. repeat split; reflexivity. Qed.

(** Account [Bob], active, password [secret1] confirmed, Enter at the
    dry run: exit status 0, one record in the log, both hashes replaced
    and nothing else touched, connection closed. *)
Example run_bob_resets :
  let out := run Demo.env0 default_args
               (Demo.start Demo.table
                  (Demo.lines ["bob"; "secret1"; "secret1"; ""])) in
  fst out = 0%Z
  /\ audit (snd out)
     = [lit "2024-01-31 12:00:00 - Password reset for account ID: 12, username: Bob"]
  /\ map id (accounts (snd out)) = [7; 12; 3]%Z
  /\ map passhash (accounts (snd out))
     = [lit "old-test-A"; lit "$2a$12$BBBBBBBBBBBBBBBBsecret1"; lit "old-test-F"]
  /\ nth_error (map password (accounts (snd out))) 0 = Some (lit "old-launcher-A")
  /\ nth_error (map password (accounts (snd out))) 1
     <> Some (lit "old-launcher-B")
  /\ conn_open (snd out) = false.
Proof.
  vm_compute. repeat split; try reflexivity. discriminate.
Qed.

(** Account [Alice], inactive, the operator declines the warning: exit
    status 0, the table and the log as they were. *)
Example run_alice_declined :
  let out := run Demo.env0 default_args
               (Demo.start Demo.table
                  (Demo.lines ["Alice"; "secret1"; "secret1"; "n"])) in
  fst out = 0%Z /\ accounts (snd out) = Demo.table /\ audit (snd out) = [].
Proof. vm_compute. repeat split; reflexivity. Qed.

(** The [UPDATE] fails after writing one column: exit status 1, the
    table and the log as they were. *)
Example run_update_fails_half_way :
  let out := run (Demo.env_with Demo.server (Demo.half_write 1)) default_args
               (Demo.start Demo.table
                  (Demo.lines ["bob"; "secret1"; "secret1"; ""])) in
  fst out = 1%Z /\ accounts (snd out) = Demo.table /\ audit (snd out) = [].
Proof. vm_compute. repeat split; reflexivity. Qed.

(** The operator interrupts the confirmation prompt: exit status 0. *)
Example run_interrupted :
  let out := run Demo.env0 default_args
               (Demo.start Demo.table
                  (Demo.lines ["bob"; "secret1"] ++ [CtrlC])%list) in
  fst out = 0%Z /\ accounts (snd out) = Demo.table /\ audit (snd out) = [].
Proof. vm_compute. repeat split; reflexivity. Qed.

Lemma get_password_input_first_long_enough_witness :
  get_password_input 6
    (Demo.connected Demo.table
       (Demo.lines ["abc"; "12345"; "secret"; "next"]))
  = (Ok (lit "secret"), Demo.connected Demo.table (Demo.lines ["next"]))
  /\ get_password_input 6
       (Demo.connected Demo.table (Demo.lines ["12345"; "next"]))
     = get_password_input 6 (Demo.connected Demo.table (Demo.lines ["next"]))
  /\ get_password_input 6
       (Demo.connected Demo.table (Demo.lines ["123456"; "next"]))
     = (Ok (lit "123456"), Demo.connected Demo.table (Demo.lines ["next"])).
Proof.
  destruct get_password_input_first_long_enough as (Hgen & Hfive & Hsix).
  split; [|split].
  - apply (Hgen 6%nat [lit "abc"; lit "12345"] (lit "secret")
             (Demo.lines ["next"]) (Demo.connected Demo.table [])).
    + repeat constructor; simpl; lia.
    + simpl; lia.
  - apply (Hfive (lit "12345") (Demo.lines ["next"])
             (Demo.connected Demo.table [])).
    reflexivity.
  - apply (Hsix (lit "123456") (Demo.lines ["next"])
             (Demo.connected Demo.table [])).
    reflexivity.
Defined.



Lemma connect_database_blank_name_is_psforever_witness :
  connect_database Demo.env0 (lit "localhost") 5432 (lit "psforever")
    (lit "psforever_test") None
    (Demo.start Demo.table (Demo.lines ["   "; "bob"]))
  = connect_attempts Demo.env0 2 (lit "localhost") 5432 (lit "psforever")
      (lit "psforever") (lit "psforever")
      (set_stdin
         (set_connects (Demo.start Demo.table [])
            [Build_conn_params (lit "localhost") 5432 (lit "psforever")
               (lit "psforever") (lit "psforever_test")])
         (Demo.lines ["bob"]))
  /\ forall r w',
       connect_database Demo.env0 (lit "localhost") 5432 (lit "psforever")
         (lit "psforever_test") None
         (Demo.start Demo.table (Demo.lines ["   "; "bob"])) = (r, w') ->
       nth_error (connects w') 1
       = Some (Build_conn_params (lit "localhost") 5432 (lit "psforever")
                 (lit "psforever") (lit "psforever")).
Proof.
  apply (connect_database_blank_name_is_psforever Demo.env0 1
           (lit "localhost") 5432 (lit "psforever") (lit "psforever_test")
           (lit "psforever")
           (Demo.start Demo.table (Demo.lines ["   "; "bob"]))
           (lit "FATAL:  database does not exist") (lit "   ")
           (Demo.lines ["bob"])).
  - reflexivity.
  - reflexivity.
  - reflexivity.
  - reflexivity.
Defined.


Lemma update_password_atomic_witness :
  (exists w',
      update_password (Demo.env_with Demo.server (Demo.half_write 0)) 12
        (blit "$2a$12$new-launcher") (blit "$2a$12$new-test")
        (Demo.connected Demo.table [])
      = (Ok false, w')
      /\ accounts w' = Demo.table /\ session w' = Demo.table)
  /\ (exists w',
         update_password Demo.env0 12
           (blit "$2a$12$new-launcher") (blit "$2a$12$new-test")
           (Demo.connected Demo.table [])
         = (Ok true, w')
         /\ forall row,
              In row (accounts w') -> id row = 12%Z ->
              password row = lit "$2a$12$new-launcher"
              /\ passhash row = lit "$2a$12$new-test").
Proof.
  split.
  - destruct (update_password_atomic
                (Demo.env_with Demo.server (Demo.half_write 0)) 12
                (blit "$2a$12$new-launcher") (blit "$2a$12$new-test")
                (Demo.connected Demo.table []))
      as (ok & w' & Hrun & _ & _ & Hfalse & Hiff & _).
    assert (Hok : ok = false).
    { apply Hiff. right. right. left. vm_compute. discriminate. }
    subst ok. exists w'. split; [exact Hrun|]. exact (Hfalse eq_refl).
  - destruct (update_password_atomic Demo.env0 12
                (blit "$2a$12$new-launcher") (blit "$2a$12$new-test")
                (Demo.connected Demo.table []))
      as (ok & w' & Hrun & _ & Htrue & _ & Hiff & _).
    destruct ok.
    + exists w'. split; [exact Hrun|].
      destruct (Htrue eq_refl) as (p1 & p2 & Hd1 & Hd2 & _ & _ & Hrows & _).
      vm_compute in Hd1. vm_compute in Hd2.
      injection Hd1 as <-. injection Hd2 as <-. exact Hrows.
    + exfalso.
      destruct (proj1 Hiff eq_refl) as [H|[H|[H|H]]];
        vm_compute in H; try discriminate H; apply H; reflexivity.
Defined.

Lemma demo_digest_length (m : bytes) : List.length (Demo.digest m) = 32%nat.
Proof.
  unfold Demo.digest. rewrite length_firstn, length_app, repeat_length. lia.
Qed.

Lemma demo_byte_eqb_eq (a b : Byte.byte) : Demo.byte_eqb a b = true <-> a = b.
Proof.
  unfold Demo.byte_eqb. rewrite N.eqb_eq. split; [|intros ->; reflexivity].
  intros H. pose proof (Byte.of_to_N a) as Ha. rewrite H, Byte.of_to_N in Ha.
  congruence.
Qed.

Lemma demo_bytes_eqb_refl (a : bytes) : Demo.bytes_eqb a a = true.
Proof.
  induction a as [|x a IH]; simpl; [reflexivity|].
  rewrite IH, (proj2 (demo_byte_eqb_eq x x) eq_refl). reflexivity.
Qed.

Lemma demo_hash_accepts (data salt : bytes) :
  (List.length data <= 72)%nat -> ~ In Byte.x00 data ->
  Demo.hash_of data salt <> None.
Proof.
  intros Hlen Hnul. unfold Demo.hash_of.
  apply Nat.leb_le in Hlen. rewrite Hlen.
  destruct (existsb (Demo.byte_eqb Byte.x00) data) eqn:Hex; [|discriminate].
  exfalso. apply existsb_exists in Hex. destruct Hex as (b & Hin & Hb).
  apply demo_byte_eqb_eq in Hb. subst b. contradiction.
Qed.

Lemma demo_check_hash (data salt hashed : bytes) :
  Demo.hash_of data salt = Some hashed -> Demo.check data hashed = true.
Proof.
  unfold Demo.hash_of, Demo.check.
  destruct ((List.length data <=? 72)%nat
            && negb (existsb (Demo.byte_eqb Byte.x00) data));
    [|discriminate].
  intros H. injection H as <-.
  rewrite length_app.
  replace (List.length salt + List.length data - List.length data)%nat
    with (List.length salt + 0)%nat by lia.
  rewrite skipn_app, Nat.add_0_r, skipn_all.
  replace (List.length salt - List.length salt)%nat with 0%nat by lia.
  simpl. apply demo_bytes_eqb_refl.
Qed.

Lemma generate_launcher_hash_spec_witness :
  (exists hashed,
      bcrypt_hashpw Demo.env0
        (map byte_of_N
           (hexdigest (sha256 Demo.env0 (blit "Bob" ++ blit "secret1")%list)))
        (bcrypt_gensalt Demo.env0 12 (blit "2a") (urandom Demo.env0 0))
      = Some hashed
      /\ generate_launcher_hash Demo.env0 (lit "Bob") (lit "secret1")
           (Demo.connected Demo.table [])
         = (Ok hashed, set_rand_calls (Demo.connected Demo.table []) 1))
  /\ List.length
       (hexdigest (sha256 Demo.env0 (blit "Bob" ++ blit "secret1")%list))
     = 64%nat.
Proof.
  destruct (proj1 (generate_launcher_hash_spec Demo.env0)
              (lit "Bob") (lit "secret1") (Demo.connected Demo.table [])
              eq_refl eq_refl)
    as (u8 & p8 & Hu & Hp & _ & _ & _ & Hlen & _ & _ & _ & Hret).
  vm_compute in Hu. vm_compute in Hp.
  injection Hu as <-. injection Hp as <-.
  split.
  - apply Hret.
    + exact demo_digest_length.
    + intros input seed. apply demo_hash_accepts.
  - etransitivity; [exact Hlen | reflexivity].
Defined.

Lemma generate_testclient_hash_verifies_witness :
  exists hashed,
    generate_testclient_hash Demo.env0 (lit "secret1")
      (Demo.connected Demo.table [])
    = (Ok hashed, set_rand_calls (Demo.connected Demo.table []) 1)
    /\ bcrypt_checkpw Demo.env0 (blit "secret1") hashed = true.
Proof.
  destruct (generate_testclient_hash_verifies Demo.env0 (lit "secret1")
              (Demo.connected Demo.table []) eq_refl demo_check_hash)
    as (p8 & Hp & _ & _ & _ & Hret).
  vm_compute in Hp. injection Hp as <-.
  apply Hret.
  - intros data seed. apply demo_hash_accepts.
  - simpl; lia.
  - simpl. intros [H|[H|[H|[H|[H|[H|[H|[]]]]]]]]; discriminate H.
Defined.


Lemma audit_log_only_on_success_witness :
  (audit (snd (run Demo.env0 default_args
                 (Demo.start Demo.table
                    (Demo.lines ["bob"; "secret1"; "secret1"; ""]))))
   = []
   \/ (fst (run Demo.env0 default_args
              (Demo.start Demo.table
                 (Demo.lines ["bob"; "secret1"; "secret1"; ""]))) = 0%Z
       /\ exists row p,
            In row Demo.table
            /\ reset_done Demo.env0
                 (Demo.start Demo.table
                    (Demo.lines ["bob"; "secret1"; "secret1"; ""]))
                 (snd (run Demo.env0 default_args
                         (Demo.start Demo.table
                            (Demo.lines ["bob"; "secret1"; "secret1"; ""]))))
                 row p
            /\ audit (snd (run Demo.env0 default_args
                             (Demo.start Demo.table
                                (Demo.lines ["bob"; "secret1"; "secret1"; ""]))))
               = [] ++ [asctime Demo.env0
                        ++ lit " - Password reset for account ID: "
                        ++ str_of_int (id row)
                        ++ lit ", username: " ++ username row]))%list
  /\ audit (snd (run (Demo.env_with Demo.server (Demo.half_write 1))
                   default_args
                   (Demo.start Demo.table
                      (Demo.lines ["bob"; "secret1"; "secret1"; ""]))))
     = [].
Proof.
  split.
  - apply (proj1 (audit_log_only_on_success Demo.env0) default_args
             (Demo.start Demo.table
                (Demo.lines ["bob"; "secret1"; "secret1"; ""]))).
    apply surjective_pairing.
  - destruct (proj1 (audit_log_only_on_success
                       (Demo.env_with Demo.server (Demo.half_write 1)))
                default_args
                (Demo.start Demo.table
                   (Demo.lines ["bob"; "secret1"; "secret1"; ""]))
                _ _ (surjective_pairing _))
      as [Hsame | (Hcode & _)].
    + exact Hsame.
    + vm_compute in Hcode. discriminate Hcode.
Defined.

(* ================================================================== *)
(** ** More on connecting *)
(* ================================================================== *)

Local Close Scope string_scope.

(** X1: the first connection attempt of [connect_database] is made with
    the host, port, user and database it was given and, when no password
    was given, with the user name as the password; a given password is
    used as it is. *)
Theorem connect_database_default_password (E : env) (host : str) (port : Z)
    (user database : str) (passwd : option str) (w w' : world)
    (r : res unit) :
  connect_database E host port user database passwd w = (r, w') ->
  nth_error (connects w') (List.length (connects w))
  = Some (Build_conn_params host port user
            (match passwd with
             | None => user
             | Some p => p
             end)
            database).
Proof.
  unfold connect_database. cbv zeta. intros Hrun.
  apply connect_attempts_first in Hrun. destruct Hrun as [tail Ht].
  rewrite Ht, nth_error_app2 by lia.
  rewrite Nat.sub_diag. reflexivity.
Qed.

(** X2: a refused connection, or an exception of the driver that is not
    an [OperationalError], is fatal at once, whatever the number of
    attempts left: [sys.exit(1)] after that one attempt, without a prompt;
    when it is the first attempt the process ends with status 1 and
    nothing else has happened. *)
Theorem connect_database_fatal_at_once (E : env) (remaining : nat)
    (host : str) (port : Z) (user database passwd : str) (w : world) :
  let params := Build_conn_params host port user passwd database in
  let w1 := set_connects w (connects w ++ [params]) in
  (pg_connect E (List.length (connects w)) params = OtherError
   \/ exists e,
        pg_connect E (List.length (connects w)) params = OperationalError e
        /\ classify (py_lower E e) = Refused) ->
  connect_attempts E (S remaining) host port user database passwd w
  = (Raise (SystemExit 1), w1)
  /\ (forall a : args,
        host = arg_host a -> port = arg_port a -> user = arg_user a ->
        database = arg_db a -> passwd = arg_user a ->
        run E a w = (1%Z, w1)).
Proof.
  intros params w1 Hfatal.
  assert (Hstep :
    connect_attempts E (S remaining) host port user database passwd w
    = (Raise (SystemExit 1), w1)).
  { rewrite connect_attempts_step. cbv zeta. fold params.
    destruct Hfatal as [-> | (e & -> & ->)]; reflexivity. }
  split; [exact Hstep|].
  intros a -> -> -> -> ->.
  assert (H3 :
    connect_attempts E 3 (arg_host a) (arg_port a) (arg_user a) (arg_db a)
      (arg_user a) w = (Raise (SystemExit 1), w1)).
  { rewrite connect_attempts_step. cbv zeta. fold params.
    destruct Hfatal as [-> | (e & -> & ->)]; reflexivity. }
  unfold run. rewrite (main_not_connected E a w w1 (SystemExit 1) H3).
  reflexivity.
Qed.

(** X3: after an authentication failure at an attempt that is not the
    last, [connect_database] reads a password from the terminal and makes
    the next attempt with that password exactly as typed (no stripping),
    for the same host, port, user and database. *)
Theorem connect_database_password_retry (E : env) (k : nat) (host : str)
    (port : Z) (user database passwd : str) (w : world) (e typed : str)
    (rest : list event) :
  pg_connect E (List.length (connects w))
    (Build_conn_params host port user passwd database) = OperationalError e ->
  classify (py_lower E e) = AuthFailed ->
  stdin w = Line typed :: rest ->
  connect_attempts E (S (S k)) host port user database passwd w
  = connect_attempts E (S k) host port user database typed
      (set_stdin
         (set_connects w
            (connects w ++ [Build_conn_params host port user passwd database]))
         rest)
  /\ forall r w',
       connect_attempts E (S (S k)) host port user database passwd w = (r, w') ->
       nth_error (connects w') (S (List.length (connects w)))
       = Some (Build_conn_params host port user typed database).
Proof.
  intros Hfail Hkind Hin.
  assert (Hstep :
    connect_attempts E (S (S k)) host port user database passwd w
    = connect_attempts E (S k) host port user database typed
        (set_stdin
           (set_connects w
              (connects w ++ [Build_conn_params host port user passwd database]))
           rest)).
  { rewrite connect_attempts_step. cbv zeta.
    rewrite Hfail, Hkind, Hin. reflexivity. }
  split; [exact Hstep|].
  intros r w' Hrun. rewrite Hstep in Hrun.
  apply connect_attempts_first in Hrun. destruct Hrun as [tail Ht].
  rewrite Ht. cbn [connects set_stdin set_connects].
  rewrite nth_error_app2; rewrite length_app; simpl List.length; [|lia].
  replace (S (List.length (connects w)) - (List.length (connects w) + 1))%nat
    with 0%nat by lia.
  reflexivity.
Qed.

(** X4: after an operational error that is none of the three recognised
    kinds, at an attempt that is not the last, [connect_database] tries
    again with exactly the same parameters and without reading from the
    terminal. *)
Theorem connect_database_unknown_error_retry (E : env) (k : nat) (host : str)
    (port : Z) (user database passwd : str) (w : world) (e : str) :
  pg_connect E (List.length (connects w))
    (Build_conn_params host port user passwd database) = OperationalError e ->
  classify (py_lower E e) = Unknown ->
  connect_attempts E (S (S k)) host port user database passwd w
  = connect_attempts E (S k) host port user database passwd
      (set_connects w
         (connects w ++ [Build_conn_params host port user passwd database]))
  /\ forall r w',
       connect_attempts E (S (S k)) host port user database passwd w = (r, w') ->
       nth_error (connects w') (S (List.length (connects w)))
       = Some (Build_conn_params host port user passwd database).
Proof.
  intros Hfail Hkind.
  assert (Hstep :
    connect_attempts E (S (S k)) host port user database passwd w
    = connect_attempts E (S k) host port user database passwd
        (set_connects w
           (connects w ++ [Build_conn_params host port user passwd database]))).
  { rewrite connect_attempts_step. cbv zeta.
    rewrite Hfail, Hkind. reflexivity. }
  split; [exact Hstep|].
  intros r w' Hrun. rewrite Hstep in Hrun.
  apply connect_attempts_first in Hrun. destruct Hrun as [tail Ht].
  rewrite Ht. cbn [connects set_connects].
  rewrite nth_error_app2; rewrite length_app; simpl List.length; [|lia].
  replace (S (List.length (connects w)) - (List.length (connects w) + 1))%nat
    with 0%nat by lia.
  reflexivity.
Qed.

Lemma connect_attempts_last_connected (E : env) (remaining : nat) :
  forall host port user database passwd w w',
    connect_attempts E remaining host port user database passwd w = (Ok tt, w') ->
    exists earlier params,
      connects w' = connects w ++ earlier ++ [params]
      /\ pg_connect E (List.length (connects w ++ earlier)) params = Connected
      /\ (List.length earlier < remaining)%nat.
Proof.
  induction remaining as [|remaining IH];
    intros host port user database passwd w w'.
  - simpl. discriminate.
  - rewrite connect_attempts_step. cbv zeta.
    set (params := Build_conn_params host port user passwd database).
    destruct (pg_connect E (List.length (connects w)) params) as [|e|] eqn:Hp.
    + intros H; inversion H; subst. exists [], params.
      cbn [connects set_conn_open set_session set_connects app].
      rewrite app_nil_r. repeat split; auto. simpl. lia.
    + assert (Hrec : forall database0 passwd0 w1,
                connects w1 = connects w ++ [params] ->
                connect_attempts E remaining host port user database0 passwd0 w1
                = (Ok tt, w') ->
                exists earlier params0,
                  connects w' = connects w ++ earlier ++ [params0]
                  /\ pg_connect E (List.length (connects w ++ earlier)) params0
                     = Connected
                  /\ (List.length earlier < S remaining)%nat).
      { intros database0 passwd0 w1 Hw1 Hrun.
        destruct (IH _ _ _ _ _ _ _ Hrun) as (earlier & params0 & Hc & Hok & Hlen).
        exists (params :: earlier), params0. rewrite Hw1 in Hc, Hok.
        rewrite <- app_assoc in Hc, Hok. simpl in Hc, Hok.
        repeat split; auto. simpl. lia. }
      destruct (classify (py_lower E e)).
      * destruct (stdin w) as [|[answer|] rest]; try discriminate.
        apply Hrec. reflexivity.
      * destruct (stdin w) as [|[answer|] rest]; try discriminate.
        apply Hrec. reflexivity.
      * discriminate.
      * apply Hrec. reflexivity.
    + discriminate.
Qed.

(** X5: [connect_database] returns only with a live connection: when it
    returns, the last of its one to three attempts was accepted by the
    server, the connection is open, the session starts on the committed
    table, and the table and the audit log are as they were. *)
Theorem connect_database_returns_connected (E : env) (host : str) (port : Z)
    (user database : str) (passwd : option str) (w w' : world) :
  connect_database E host port user database passwd w = (Ok tt, w') ->
  (exists earlier params,
      connects w' = connects w ++ earlier ++ [params]
      /\ pg_connect E (List.length (connects w ++ earlier)) params = Connected
      /\ (List.length earlier < 3)%nat)
  /\ conn_open w' = true
  /\ session w' = accounts w'
  /\ accounts w' = accounts w
  /\ audit w' = audit w.
Proof.
  unfold connect_database. cbv zeta. intros Hrun.
  split; [exact (connect_attempts_last_connected E 3 _ _ _ _ _ _ _ Hrun)|].
  destruct (connect_attempts_ok E 3 _ _ _ _ _ _ _ Hrun) as [Hs Ho].
  destruct (connect_attempts_same_store E 3 _ _ _ _ _ _ _ _ Hrun) as [Ha Hu].
  auto.
Qed.

(* ================================================================== *)
(** ** What every run keeps *)
(* ================================================================== *)

Section RaisesOnly.

Variable P : exn -> Prop.

Lemma raises_only_ret {A} (a : A) : raises_only P (ret a).
Proof. intros w e w' H. discriminate. Qed.

Lemma raises_only_raise {A} (e : exn) : P e -> raises_only P (@raise A e).
Proof. intros He w e' w' H. inversion H; subst. exact He. Qed.

Lemma raises_only_bind {A B} (m : M A) (k : A -> M B) :
  raises_only P m -> (forall a, raises_only P (k a)) ->
  raises_only P (bind m k).
Proof.
  intros Hm Hk w e w'. unfold bind.
  destruct (m w) as [[a|e0] w1] eqn:Hmw.
  - apply Hk.
  - intros H. inversion H; subst. exact (Hm _ _ _ Hmw).
Qed.

Lemma raises_only_try_except {A} (m : M A) caught (handler : exn -> M A) :
  raises_only P m -> (forall e, raises_only P (handler e)) ->
  raises_only P (try_except m caught handler).
Proof.
  intros Hm Hh w e w'. unfold try_except.
  destruct (m w) as [[a|e0] w1] eqn:Hmw.
  - discriminate.
  - destruct (caught e0).
    + apply Hh.
    + intros H. inversion H; subst. exact (Hm _ _ _ Hmw).
Qed.

Lemma raises_only_try_finally {A} (m : M A) (cleanup : M unit) :
  raises_only P m -> raises_only P cleanup ->
  raises_only P (try_finally m cleanup).
Proof.
  intros Hm Hc w e w'. unfold try_finally.
  destruct (m w) as [r1 w1] eqn:Hmw.
  destruct (cleanup w1) as [[u|e0] w2] eqn:Hcw; intros H; inversion H; subst.
  - exact (Hm _ _ _ Hmw).
  - exact (Hc _ _ _ Hcw).
Qed.

Lemma raises_only_while_true {A} (body : M (option A)) :
  P OutOfFuel -> raises_only P body -> raises_only P (while_true body).
Proof.
  intros Hfuel Hb.
  assert (Hn : forall n, raises_only P (loop_until n body)).
  { induction n as [|n IH]; simpl.
    - apply raises_only_raise. exact Hfuel.
    - apply raises_only_bind; [exact Hb|].
      intros [a|]; [apply raises_only_ret | exact IH]. }
  intros w e w'. unfold while_true. apply Hn.
Qed.

Lemma raises_only_for_each {I A} (items : list I) (body : I -> M (option A)) :
  (forall i, raises_only P (body i)) -> raises_only P (for_each items body).
Proof.
  intros Hb. induction items as [|i items IH]; simpl.
  - apply raises_only_ret.
  - apply raises_only_bind; [apply Hb|].
    intros [a|]; [apply raises_only_ret | assumption].
Qed.

End RaisesOnly.

(** Reasoning on what is raised through the structure of a monadic term,
    for the exit statuses 0 and 1. *)
Ltac exits_tac :=
  repeat first
    [ assumption
    | match goal with H : _ |- _ => solve [apply H] end
    | apply raises_only_ret
    | apply raises_only_raise; solve [exact I | left; reflexivity
                                     | right; reflexivity]
    | apply raises_only_bind; [|intros ?]
    | apply raises_only_try_except; [|intros ?]
    | apply raises_only_try_finally
    | apply raises_only_while_true; [exact I|]
    | apply raises_only_for_each; intros ?
    | match goal with
      | |- raises_only _ (match ?x with _ => _ end) => destruct x
      | |- raises_only _ (if ?x then _ else _) => destruct x
      | |- raises_only _ (let _ := _ in _) => cbv zeta
      | |- raises_only _ (sys_exit _) =>
          apply raises_only_raise; solve [left; reflexivity | right; reflexivity]
      end ].

Section Exits.

Variable E : env.

Lemma input_exits : raises_only exits_0_or_1 input.
Proof.
  intros w e w'. unfold input.
  destruct (stdin w) as [|[s|] rest]; intros H; inversion H; exact I.
Qed.

Lemma cursor_execute_exits (effect : list account -> list account) :
  raises_only exits_0_or_1 (cursor_execute E effect).
Proof.
  intros w e w'. unfold cursor_execute.
  destruct (db_fault E (db_ops w)); intros H; inversion H; exact I.
Qed.

Lemma find_account_exits (s : str) :
  raises_only exits_0_or_1 (find_account E s).
Proof.
  unfold find_account. apply raises_only_bind.
  - apply cursor_execute_exits.
  - intros _ w e w'.
    destruct (select_account E (session w) s); discriminate.
Qed.

Lemma connect_attempts_exits (remaining : nat) :
  forall host port user database passwd,
    raises_only exits_0_or_1
      (connect_attempts E remaining host port user database passwd).
Proof.
  induction remaining as [|remaining IH]; intros; simpl.
  - exits_tac.
  - assert (Hc : forall params,
              raises_only exits_0_or_1 (psycopg2_connect E params)).
    { intros params w e w'. unfold psycopg2_connect.
      destruct (pg_connect E _ _); discriminate. }
    pose proof input_exits. unfold getpass. exits_tac; apply IH.
Qed.

Lemma update_password_exits (i : Z) (lh th : bytes) :
  raises_only exits_0_or_1 (update_password E i lh th).
Proof.
  intros w e w' H.
  destruct (update_password_cases E i lh th w) as (ok & w1 & Hrun & _).
  rewrite Hrun in H. discriminate.
Qed.

Lemma hash_exits (data : M bytes) :
  raises_only exits_0_or_1 data ->
  raises_only exits_0_or_1
    (d <- data ;; salt <- gensalt E 12 (blit "2a") ;; hashpw E d salt).
Proof.
  intros Hd. apply raises_only_bind; [exact Hd|]. intros d.
  apply raises_only_bind.
  - intros w e w' H. discriminate.
  - intros salt. unfold hashpw. exits_tac.
Qed.

Lemma str_encode_exits (s : str) : raises_only exits_0_or_1 (str_encode s).
Proof. unfold str_encode. exits_tac. Qed.

Lemma main_body_exits : raises_only exits_0_or_1 (main_body E).
Proof.
  unfold main_body. pose proof input_exits.
  apply raises_only_bind.
  { apply raises_only_while_true; [exact I|].
    unfold ask_username. pose proof find_account_exits. exits_tac. }
  intros [[account_id exact_username] is_inactive].
  apply raises_only_bind.
  { apply raises_only_while_true; [exact I|].
    unfold ask_password, get_password_input, confirm_password, getpass.
    exits_tac. }
  intros p. apply raises_only_bind.
  { unfold dry_run_confirm. exits_tac. }
  intros _. unfold reset_account.
  apply raises_only_bind.
  { unfold generate_launcher_hash. apply raises_only_bind.
    - apply str_encode_exits.
    - intros salted. cbv zeta. apply hash_exits, str_encode_exits. }
  intros lh. apply raises_only_bind.
  { unfold generate_testclient_hash. apply hash_exits, str_encode_exits. }
  intros th. apply raises_only_bind; [apply update_password_exits|].
  intros [|].
  - intros w e w' H0. discriminate.
  - exits_tac.
Qed.

Lemma main_exits (a : args) : raises_only exits_0_or_1 (main E a).
Proof.
  unfold main. apply raises_only_bind.
  - apply raises_only_try_except.
    + apply connect_attempts_exits.
    + intros e. exits_tac.
  - intros _. apply raises_only_try_finally.
    + apply main_body_exits.
    + intros w e w' H. discriminate.
Qed.

Lemma connect_attempts_raise_same_conn (remaining : nat) :
  forall host port user database passwd w e w',
    connect_attempts E remaining host port user database passwd w
    = (Raise e, w') ->
    conn_open w' = conn_open w.
Proof.
  induction remaining as [|remaining IH];
    intros host port user database passwd w e w'.
  - simpl. unfold sys_exit, raise. intros H; inversion H; reflexivity.
  - rewrite connect_attempts_step. cbv zeta.
    destruct (pg_connect E _ _) as [|e0|].
    + discriminate.
    + destruct (classify (py_lower E e0)).
      * destruct (stdin w) as [|[answer|] rest]; intros H;
          try (inversion H; reflexivity).
        apply IH in H. exact H.
      * destruct (stdin w) as [|[answer|] rest]; intros H;
          try (inversion H; reflexivity).
        apply IH in H. exact H.
      * intros H; inversion H; reflexivity.
      * intros H. apply IH in H. exact H.
    + intros H; inversion H; reflexivity.
Qed.

End Exits.

(** X6: once the command line is parsed, the process ends with exit
    status 0 or 1 whatever the server and the operator do; with status 1
    the account table and the audit log are as they were before the run,
    so a run that changed either of them ended with status 0. *)
Theorem run_exit_status (E : env) (a : args) (w w' : world) (code : Z) :
  run E a w = (code, w') ->
  (code = 0%Z \/ code = 1%Z)
  /\ (code = 1%Z -> accounts w' = accounts w /\ audit w' = audit w)
  /\ (accounts w' <> accounts w \/ audit w' <> audit w -> code = 0%Z).
Proof.
  intros Hrun.
  assert (Hcode : code = 0%Z \/ code = 1%Z).
  { revert Hrun. unfold run.
    destruct (main E a w) as [[u|e] w1] eqn:Hm; intros H; inversion H; subst.
    - left. reflexivity.
    - pose proof (main_exits E a w e w' Hm) as He.
      destruct e; simpl in *; auto. }
  destruct (run_outcome E a w w' code Hrun) as [[Ha Hu] | [Hz _]].
  - split; [exact Hcode|]. split; [auto|].
    intros [H|H]; contradiction.
  - split; [exact Hcode|]. split; [|auto].
    intros H1. rewrite Hz in H1. discriminate.
Qed.

(** X7: the database connection is released on every way out of [main]:
    once [connect_database] has returned, whatever happens next (success,
    abort, error, interrupt, end of input), [main] ends with the
    connection closed and no uncommitted work left; and when no connection
    was made, none is left open. *)
Theorem main_releases_connection (E : env) (a : args) (w w' : world)
    (r : res unit) :
  main E a w = (r, w') ->
  match connect_database E (arg_host a) (arg_port a) (arg_user a) (arg_db a)
          None w with
  | (Ok _, _) => conn_open w' = false /\ session w' = accounts w'
  | (Raise _, _) => conn_open w' = conn_open w
  end.
Proof.
  destruct (connect_database E (arg_host a) (arg_port a) (arg_user a)
              (arg_db a) None w) as [[[]|e] wc] eqn:Hc.
  - rewrite (main_connected E a w wc Hc).
    destruct (main_body E wc) as [r0 wb].
    intros H; inversion H; subst. split; reflexivity.
  - rewrite (main_not_connected E a w wc e Hc).
    intros H; inversion H; subst.
    exact (connect_attempts_raise_same_conn E 3 _ _ _ _ _ _ _ _ Hc).
Qed.

(* ================================================================== *)
(** ** More on looking up and updating *)
(* ================================================================== *)

(** X8: an empty or all-whitespace user name is turned down without a
    query to the database and without counting as a failed lookup: any
    number of such lines is skipped and the prompt goes on with what
    follows. *)
Theorem blank_usernames_are_skipped (E : env) (blanks : list str)
    (rest : list event) (w : world) :
  Forall (fun s => forallb is_space s = true) blanks ->
  while_true (ask_username E) (set_stdin w (map Line blanks ++ rest))
  = while_true (ask_username E) (set_stdin w rest).
Proof.
  induction 1 as [|s blanks Hs _ IH]; simpl; [reflexivity|].
  rewrite while_true_unfold by apply ask_username_consuming.
  unfold ask_username at 1. unfold bind at 1.
  rewrite input_line, (strip_spaces _ Hs). simpl. exact IH.
Qed.

Lemma first_is_guard (ch : string) (s : str) :
  negb (is_empty s) && first_is ch s = first_is ch s.
Proof. destruct s; reflexivity. Qed.

(** X9: when the user name typed matches no account, one query has been
    made and the operator is asked whether to try again: an answer that,
    stripped and lowercased, starts with [n] ends the run through
    [sys.exit(0)]; any other answer, the empty one included, leads back to
    the user name prompt. *)
Theorem unknown_username_retry_or_abort (E : env) (typed answer : str)
    (rest : list event) (w : world) :
  is_empty (strip typed) = false ->
  db_fault E (db_ops w) = None ->
  select_account E (session w) (strip typed) = None ->
  while_true (ask_username E)
    (set_stdin w (Line typed :: Line answer :: rest))
  = if first_is "n" (py_lower E (strip answer))
    then (Raise (SystemExit 0),
          set_db_ops (set_stdin w rest) (S (db_ops w)))
    else while_true (ask_username E)
           (set_db_ops (set_stdin w rest) (S (db_ops w))).
Proof.
  intros Hname Hok Hsel.
  rewrite while_true_unfold by apply ask_username_consuming.
  unfold ask_username at 1. unfold bind at 1.
  rewrite input_line, Hname. unfold bind at 1.
  rewrite find_account_run by exact Hok.
  cbn [session set_stdin db_ops]. rewrite Hsel. cbn [option_map].
  unfold bind at 1.
  rewrite (input_next _ answer rest) by reflexivity.
  rewrite first_is_guard.
  destruct (first_is "n" (py_lower E (strip answer))); reflexivity.
Qed.

Lemma sql_update_miss (p1 p2 : str) (account_id : Z) (rows : list account) :
  (forall r, In r rows -> id r <> account_id) ->
  sql_update p1 p2 account_id rows = rows.
Proof.
  intros Hmiss. unfold sql_update.
  induction rows as [|r rows IH]; simpl; [reflexivity|].
  rewrite IH by (intros r0 Hin; apply Hmiss; right; exact Hin).
  unfold set_hashes.
  destruct (Z.eqb_spec (id r) account_id) as [Heq|Hne]; [|reflexivity].
  exfalso. apply (Hmiss r); [left; reflexivity | exact Heq].
Qed.

(** X11: an account id that no row carries is no error for
    [update_password]: when the hashes decode and the statement and the
    commit go through, it returns [True] although no row was changed. *)
Theorem update_password_unknown_id (E : env) (account_id : Z)
    (launcher_hash testclient_hash : bytes) (w : world) (p1 p2 : str) :
  decode_utf8 launcher_hash = Some p1 ->
  decode_utf8 testclient_hash = Some p2 ->
  db_fault E (db_ops w) = None ->
  db_fault E (S (db_ops w)) = None ->
  (forall r, In r (session w) -> id r <> account_id) ->
  exists w',
    update_password E account_id launcher_hash testclient_hash w = (Ok true, w')
    /\ accounts w' = session w
    /\ session w' = session w
    /\ audit w' = audit w.
Proof.
  intros Hd1 Hd2 Hf1 Hf2 Hmiss.
  unfold update_password, try_except, bind, bytes_decode.
  rewrite Hd1, Hd2. unfold ret at 1. unfold ret at 1.
  unfold cursor_execute. rewrite Hf1.
  unfold conn_commit. cbn [db_ops set_session set_db_ops]. rewrite Hf2.
  eexists. split; [reflexivity|]. simpl.
  rewrite (sql_update_miss p1 p2 account_id (session w) Hmiss).
  repeat split; reflexivity.
Qed.

(** X12: what is written to the two columns is the text whose UTF-8
    encoding the hashes are: given the encodings of [s1] and [s2], and a
    statement and a commit that go through, [update_password] returns
    [True] and the rows of that id hold [s1] and [s2]. *)
Theorem update_password_stores_text (E : env) (account_id : Z)
    (s1 s2 : str) (launcher_hash testclient_hash : bytes) (w : world) :
  encode_utf8 s1 = Some launcher_hash ->
  encode_utf8 s2 = Some testclient_hash ->
  db_fault E (db_ops w) = None ->
  db_fault E (S (db_ops w)) = None ->
  exists w',
    update_password E account_id launcher_hash testclient_hash w = (Ok true, w')
    /\ accounts w' = sql_update s1 s2 account_id (session w)
    /\ (forall row,
           In row (accounts w') -> id row = account_id ->
           password row = s1 /\ passhash row = s2).
Proof.
  intros He1 He2 Hf1 Hf2.
  pose proof (decode_encode_utf8 s1 launcher_hash He1) as Hd1.
  pose proof (decode_encode_utf8 s2 testclient_hash He2) as Hd2.
  unfold update_password, try_except, bind, bytes_decode.
  rewrite Hd1, Hd2. unfold ret at 1. unfold ret at 1.
  unfold cursor_execute. rewrite Hf1.
  unfold conn_commit. cbn [db_ops set_session set_db_ops]. rewrite Hf2.
  eexists. split; [reflexivity|]. simpl. split; [reflexivity|].
  intros row Hin Hid.
  apply (sql_update_hit s1 s2 account_id (session w) row Hin Hid).
Qed.

Lemma sql_update_identity (p1 p2 : str) (account_id : Z)
    (rows : list account) :
  map identity_columns (sql_update p1 p2 account_id rows)
  = map identity_columns rows.
Proof.
  unfold sql_update. rewrite map_map. apply map_ext. intros r.
  unfold set_hashes. destruct (Z.eqb (id r) account_id); reflexivity.
Qed.

Lemma sql_update_other (p1 p2 : str) (account_id : Z) (rows : list account)
    (r : account) :
  id r <> account_id ->
  In r rows <-> In r (sql_update p1 p2 account_id rows).
Proof.
  intros Hid. unfold sql_update. rewrite in_map_iff. split.
  - intros Hin. exists r. split; [|exact Hin].
    unfold set_hashes. apply Z.eqb_neq in Hid. rewrite Hid. reflexivity.
  - intros (r0 & Hset & Hin). unfold set_hashes in Hset.
    destruct (Z.eqb_spec (id r0) account_id) as [Heq|Hne].
    + exfalso. apply Hid. rewrite <- Hset. simpl. exact Heq.
    + subst r0. exact Hin.
Qed.

(** X13: a run never adds or removes accounts and never changes the id,
    the user name or the inactive flag of a row: the rows of the table
    carry the same identities as before, each as often as before.  All a
    run can change is the two hash columns, and those only in rows of one
    account id: every row of another id is in the table afterwards if and
    only if it was there before. *)
Theorem run_touches_only_hashes (E : env) (a : args) (w w' : world)
    (code : Z) :
  run E a w = (code, w') ->
  Permutation (map identity_columns (accounts w'))
    (map identity_columns (accounts w))
  /\ exists target : Z,
       forall r,
         id r <> target ->
         In r (accounts w) <-> In r (accounts w').
Proof.
  intros Hrun.
  destruct (run_outcome E a w w' code Hrun)
    as [[Ha _] | (_ & row & p & _ & _ & Hdone)].
  - rewrite Ha. split; [apply Permutation_refl|]. exists 0%Z.
    intros r _. tauto.
  - destruct Hdone as (lh & th & wl & wt & wu & wc & p1 & p2
                       & _ & _ & _ & _ & _ & _ & (Hacc & _) & Hw' & _).
    rewrite Hw', Hacc. split.
    + rewrite sql_update_identity. apply Permutation_refl.
    + exists (id row). intros r Hid. apply sql_update_other. exact Hid.
Qed.

(* ================================================================== *)
(** ** More on hashing and on the password prompts *)
(* ================================================================== *)

Lemma encode_utf8_none (s : str) :
  encode_utf8 s = None <-> well_formed s = false.
Proof.
  induction s as [|c s IH]; simpl.
  - split; discriminate.
  - destruct (scalar c) eqn:Hc.
    + destruct (proj1 (encode_utf8_char_scalar c) Hc) as [bc ->].
      simpl. rewrite <- IH. destruct (encode_utf8 s); split;
        intros H; try discriminate; reflexivity.
    + simpl. split; [reflexivity|]. intros _.
      destruct (encode_utf8_char c) as [bc|] eqn:Hbc; [|reflexivity].
      assert (Hs : scalar c = true)
        by (apply encode_utf8_char_scalar; eauto).
      congruence.
Qed.

(** X14: the two hash functions fail with [UnicodeEncodeError], before
    any salt is drawn, exactly on text that UTF-8 cannot encode (a lone
    surrogate): [generate_testclient_hash] on such a password,
    [generate_launcher_hash] on such a user name or password. *)
Theorem hash_functions_encode_error (E : env) (username0 password0 : str)
    (w : world) :
  (well_formed password0 = false <->
   generate_testclient_hash E password0 w = (Raise UnicodeEncodeError, w))
  /\ (well_formed (username0 ++ password0) = false <->
      generate_launcher_hash E username0 password0 w
      = (Raise UnicodeEncodeError, w)).
Proof.
  split.
  - rewrite <- encode_utf8_none.
    unfold generate_testclient_hash, bind, str_encode.
    destruct (encode_utf8 password0) as [p8|]; unfold ret, raise.
    + unfold gensalt, hashpw.
      destruct (bcrypt_hashpw E _ _); unfold ret, raise;
        split; discriminate.
    + split; reflexivity.
  - rewrite <- encode_utf8_none.
    unfold generate_launcher_hash, bind, str_encode.
    destruct (encode_utf8 (username0 ++ password0)) as [b|];
      unfold ret, raise.
    + rewrite hexdigest_encode. unfold gensalt, hashpw.
      destruct (bcrypt_hashpw E _ _); unfold ret, raise;
        split; discriminate.
    + split; reflexivity.
Qed.

Lemma get_password_input_eof (min_length : nat) (w : world) :
  get_password_input min_length (set_stdin w [])
  = (Raise EOFError, set_stdin w []).
Proof. reflexivity. Qed.

Lemma get_password_input_interrupt (min_length : nat) (w : world)
    (rest : list event) :
  get_password_input min_length (set_stdin w (CtrlC :: rest))
  = (Raise KeyboardInterrupt, set_stdin w rest).
Proof. reflexivity. Qed.

(** X15: [get_password_input] never returns a password shorter than the
    minimum: what it returns is one of the lines typed and is long
    enough, and when every line typed is too short it ends with
    [EOFError] at the end of the input. *)
Theorem get_password_input_never_short (min_length : nat) :
  (forall (typed : list event) (w w' : world) (p : str),
      get_password_input min_length (set_stdin w typed) = (Ok p, w') ->
      (min_length <= List.length p)%nat /\ In (Line p) typed)
  /\ (forall (short : list str) (w : world),
        Forall (fun s => (List.length s < min_length)%nat) short ->
        get_password_input min_length (set_stdin w (map Line short))
        = (Raise EOFError, set_stdin w [])).
Proof.
  split.
  - induction typed as [|[s|] typed IH]; intros w w' p.
    + rewrite get_password_input_eof. discriminate.
    + rewrite get_password_input_step.
      destruct (Nat.ltb_spec (List.length s) min_length) as [Hlt|Hge].
      * intros H. destruct (IH _ _ _ H) as [Hlen Hin].
        split; [exact Hlen | right; exact Hin].
      * intros H; inversion H; subst. split; [exact Hge | left; reflexivity].
    + rewrite get_password_input_interrupt. discriminate.
  - intros short w Hshort.
    induction Hshort as [|s short Hs _ IH]; simpl.
    + apply get_password_input_eof.
    + rewrite get_password_input_step.
      apply Nat.ltb_lt in Hs. rewrite Hs. exact IH.
Qed.

(* ================================================================== *)
(** ** Whole runs, from the first prompt to the exit status *)
(* ================================================================== *)

Lemma connect_attempts_no_input (E : env) (remaining : nat) :
  forall host port user database passwd w r w',
    stdin w = [] ->
    connect_attempts E remaining host port user database passwd w = (r, w') ->
    stdin w' = []
    /\ (r = Ok tt \/ r = Raise (SystemExit 1) \/ r = Raise EOFError).
Proof.
  induction remaining as [|remaining IH];
    intros host port user database passwd w r w' Hs.
  - simpl. unfold sys_exit, raise. intros H; inversion H; subst. auto.
  - rewrite connect_attempts_step. cbv zeta. rewrite Hs.
    destruct (pg_connect E _ _) as [|e|].
    + intros H; inversion H; subst. auto.
    + destruct (classify (py_lower E e)).
      * intros H; inversion H; subst. auto.
      * intros H; inversion H; subst. auto.
      * intros H; inversion H; subst. auto.
      * apply IH. exact Hs.
    + intros H; inversion H; subst. auto.
Qed.

(** X16: with nothing to read from the terminal the run cannot get past
    its first prompt: whether or not a connection is made, the process
    ends with status 1 and the table and the audit log untouched. *)
Theorem run_without_input (E : env) (a : args) (w : world) :
  stdin w = [] ->
  exists w',
    run E a w = (1%Z, w')
    /\ accounts w' = accounts w /\ audit w' = audit w.
Proof.
  intros Hs.
  assert (Hcode : fst (run E a w) = 1%Z).
  { unfold run.
    destruct (connect_database E (arg_host a) (arg_port a) (arg_user a)
                (arg_db a) None w) as [r wc] eqn:Hc.
    destruct (connect_attempts_no_input E 3 _ _ _ _ _ _ _ _ Hs Hc)
      as [Hsc [-> | [-> | ->]]].
    - rewrite (main_connected E a w wc Hc).
      unfold main_body, bind, while_true. rewrite Hsc. simpl.
      unfold bind, ask_username, bind, input. rewrite Hsc. reflexivity.
    - rewrite (main_not_connected E a w wc _ Hc). reflexivity.
    - rewrite (main_not_connected E a w wc _ Hc). reflexivity. }
  destruct (run E a w) as [code w'] eqn:Hrun. simpl in Hcode. subst code.
  exists w'. split; [reflexivity|].
  destruct (run_outcome E a w w' 1%Z Hrun) as [[Ha Hu] | [Hz _]].
  - auto.
  - discriminate.
Qed.

(** X17: the whole way through.  When the first connection attempt is
    accepted, the operator types a user name that finds [row], a password
    of at least 6 characters, the same password again and an answer that
    lets the dry run pass, and the hashing, the three database operations
    and the decoding of the hashes all go through, then the process ends
    with status 0, the rows of that id hold the two new hashes, the audit
    log has gained the record of that account, exactly the four lines were
    read, one connection attempt was made and the connection is closed. *)
Theorem successful_reset (E : env) (a : args) (w : world)
    (typed p answer : str) (rest : list event) (row : account)
    (u8 p8 launcher_hash testclient_hash : bytes) (s1 s2 : str) :
  pg_connect E (List.length (connects w))
    (Build_conn_params (arg_host a) (arg_port a) (arg_user a) (arg_user a)
       (arg_db a)) = Connected ->
  stdin w = Line typed :: Line p :: Line p :: Line answer :: rest ->
  is_empty (strip typed) = false ->
  select_account E (accounts w) (strip typed) = Some row ->
  (6 <= List.length p)%nat ->
  (if inactive row
   then first_is "y" (py_lower E (strip answer)) = true
   else first_is "n" (py_lower E (strip answer)) = false) ->
  db_fault E (db_ops w) = None ->
  db_fault E (S (db_ops w)) = None ->
  db_fault E (S (S (db_ops w))) = None ->
  encode_utf8 (username row) = Some u8 ->
  encode_utf8 p = Some p8 ->
  bcrypt_hashpw E (map byte_of_N (hexdigest (sha256 E (u8 ++ p8))))
    (bcrypt_gensalt E 12 (blit "2a") (urandom E (rand_calls w)))
  = Some launcher_hash ->
  bcrypt_hashpw E p8
    (bcrypt_gensalt E 12 (blit "2a") (urandom E (S (rand_calls w))))
  = Some testclient_hash ->
  decode_utf8 launcher_hash = Some s1 ->
  decode_utf8 testclient_hash = Some s2 ->
  exists w',
    run E a w = (0%Z, w')
    /\ accounts w' = sql_update s1 s2 (id row) (accounts w)
    /\ audit w' = audit w ++ [audit_record E (id row) (username row)]
    /\ stdin w' = rest
    /\ conn_open w' = false
    /\ List.length (connects w') = S (List.length (connects w)).
Proof.
  intros Hconn Hin Hname Hsel Hlen Hanswer Hf0 Hf1 Hf2 Hu8 Hp8 Hlh Hth Hd1 Hd2.
  set (params := Build_conn_params (arg_host a) (arg_port a) (arg_user a)
                   (arg_user a) (arg_db a)) in *.
  set (wc := set_conn_open
               (set_session (set_connects w (connects w ++ [params]))
                  (accounts w)) true).
  assert (Hc : connect_database E (arg_host a) (arg_port a) (arg_user a)
                 (arg_db a) None w = (Ok tt, wc)).
  { unfold connect_database. cbv zeta. rewrite connect_attempts_step.
    cbv zeta. fold params. rewrite Hconn. reflexivity. }
  set (w1 := set_db_ops
               (set_stdin wc (Line p :: Line p :: Line answer :: rest))
               (S (db_ops w))).
  assert (H1 : while_true (ask_username E) wc
               = (Ok (id row, username row, inactive row), w1)).
  { rewrite while_true_unfold by apply ask_username_consuming.
    unfold ask_username. unfold bind at 1.
    rewrite (input_next wc typed (Line p :: Line p :: Line answer :: rest) Hin).
    rewrite Hname. unfold bind at 1.
    rewrite find_account_run by exact Hf0.
    cbn [session set_stdin set_conn_open set_session wc]. rewrite Hsel.
    reflexivity. }
  set (w2 := set_stdin w1 (Line answer :: rest)).
  assert (H2 : while_true ask_password w1 = (Ok p, w2)).
  { rewrite while_true_unfold by apply ask_password_consuming.
    unfold ask_password. unfold bind at 1.
    change w1 with (set_stdin w1 (Line p :: Line p :: Line answer :: rest)).
    rewrite get_password_input_step.
    apply Nat.ltb_ge in Hlen. rewrite Hlen.
    unfold bind at 1. rewrite confirm_password_match. reflexivity. }
  set (w3 := set_stdin w2 rest).
  assert (H3 : dry_run_confirm E (inactive row) w2 = (Ok tt, w3)).
  { rewrite (dry_run_confirm_answer E (inactive row) w2 answer rest eq_refl).
    cbv zeta. destruct (inactive row).
    - rewrite Hanswer, (first_is_nonempty _ _ Hanswer). reflexivity.
    - rewrite Hanswer, andb_false_r. reflexivity. }
  set (w4 := set_rand_calls w3 (S (rand_calls w))).
  assert (H4 : generate_launcher_hash E (username row) p w3
               = (Ok launcher_hash, w4)).
  { rewrite (generate_launcher_hash_run E _ _ w3 u8 p8 Hu8 Hp8). cbv zeta.
    change (rand_calls w3) with (rand_calls w). rewrite Hlh. reflexivity. }
  set (w5 := set_rand_calls w4 (S (S (rand_calls w)))).
  assert (H5 : generate_testclient_hash E p w4 = (Ok testclient_hash, w5)).
  { rewrite (generate_testclient_hash_run E _ w4 p8 Hp8). cbv zeta.
    change (rand_calls w4) with (S (rand_calls w)). rewrite Hth. reflexivity. }
  set (w6 := set_accounts
               (set_db_ops
                  (set_session w5 (sql_update s1 s2 (id row) (accounts w)))
                  (S (S (S (db_ops w)))))
               (sql_update s1 s2 (id row) (accounts w))).
  assert (H6 : update_password E (id row) launcher_hash testclient_hash w5
               = (Ok true, w6)).
  { unfold update_password, try_except, bind, bytes_decode.
    rewrite Hd1, Hd2. unfold ret at 1. unfold ret at 1.
    unfold cursor_execute. change (db_ops w5) with (S (db_ops w)).
    rewrite Hf1. unfold conn_commit.
    cbn [db_ops set_session set_db_ops]. rewrite Hf2. reflexivity. }
  eexists. split.
  - unfold run. rewrite (main_connected E a w wc Hc).
    unfold main_body. unfold bind at 1. rewrite H1.
    unfold bind at 1. rewrite H2. unfold bind at 1. rewrite H3.
    unfold reset_account. unfold bind at 1. rewrite H4.
    unfold bind at 1. rewrite H5. unfold bind at 1. rewrite H6.
    unfold audit_log_info. reflexivity.
  - simpl. rewrite length_app. simpl.
    repeat split; try reflexivity. lia.
Qed.

(** X18: a failing lookup query is fatal: when the [SELECT] for the first
    user name typed fails, the process ends with status 1, the account
    table and the audit log are untouched, and the connection is closed
    with whatever the failure left in the session dropped. *)
Theorem lookup_failure_is_fatal (E : env) (a : args) (w wc : world)
    (typed : str) (rest : list event)
    (partial : list account -> list account) :
  connect_database E (arg_host a) (arg_port a) (arg_user a) (arg_db a) None w
  = (Ok tt, wc) ->
  stdin wc = Line typed :: rest ->
  is_empty (strip typed) = false ->
  db_fault E (db_ops wc) = Some partial ->
  exists w',
    run E a w = (1%Z, w')
    /\ accounts w' = accounts w
    /\ session w' = accounts w
    /\ audit w' = audit w
    /\ conn_open w' = false.
Proof.
  intros Hc Hin Hname Hfault.
  destruct (connect_attempts_same_store E 3 _ _ _ _ _ _ _ _ Hc) as [Ha Hu].
  assert (Hbody : main_body E wc
                  = (Raise DatabaseError,
                     set_session
                       (set_db_ops (set_stdin wc rest) (S (db_ops wc)))
                       (partial (session wc)))).
  { unfold main_body. unfold bind at 1.
    rewrite while_true_unfold by apply ask_username_consuming.
    unfold ask_username. unfold bind at 1.
    rewrite (input_next wc typed rest Hin), Hname.
    unfold bind at 1. unfold find_account. unfold bind at 1.
    unfold cursor_execute. cbn [db_ops set_stdin]. rewrite Hfault.
    reflexivity. }
  eexists. split.
  - unfold run. rewrite (main_connected E a w wc Hc), Hbody. reflexivity.
  - simpl. repeat split; congruence.
Qed.

(** X19: no password shorter than 6 characters is ever committed: a run
    that changes the account table has reset one account of the table to
    a password of at least 6 characters. *)
Theorem committed_password_is_long_enough (E : env) (a : args)
    (w w' : world) (code : Z) :
  run E a w = (code, w') ->
  accounts w' <> accounts w ->
  exists row p,
    In row (accounts w)
    /\ (6 <= List.length p)%nat
    /\ reset_done E w w' row p.
Proof.
  intros Hrun Hchanged.
  destruct (run_outcome E a w w' code Hrun)
    as [[Ha _] | (_ & row & p & Hin & Hlen & Hdone)].
  - contradiction.
  - exists row, p. auto.
Qed.

Lemma confirm_password_eof (original : str) (n : nat) (w : world) :
  confirm_password original (S n) (set_stdin w [])
  = (Raise EOFError, set_stdin w []).
Proof. reflexivity. Qed.

Lemma confirm_password_interrupt (original : str) (n : nat) (w : world)
    (rest : list event) :
  confirm_password original (S n) (set_stdin w (CtrlC :: rest))
  = (Raise KeyboardInterrupt, set_stdin w rest).
Proof. reflexivity. Qed.

(** X20: what [confirm_password] returns tells what was typed, for any
    number of attempts allowed: a password is returned only if it is the
    original, typed after fewer than [max_attempts] mismatching lines;
    [None] is returned only after exactly [max_attempts] lines were read,
    none of them equal to the original. *)
Theorem confirm_password_outcome (original : str) (max_attempts : nat) :
  forall (typed : list event) (w w' : world) (r : option str),
    confirm_password original max_attempts (set_stdin w typed) = (Ok r, w') ->
    exists wrong rest,
      Forall (fun s => s <> original) wrong
      /\ w' = set_stdin w rest
      /\ match r with
         | Some confirmed =>
             confirmed = original
             /\ (List.length wrong < max_attempts)%nat
             /\ typed = (map Line wrong ++ Line original :: rest)%list
         | None =>
             List.length wrong = max_attempts
             /\ typed = (map Line wrong ++ rest)%list
         end.
Proof.
  induction max_attempts as [|n IH]; intros typed w w' r.
  - intros H. inversion H; subst. exists [], typed.
    repeat split; auto.
  - destruct typed as [|[s|] typed].
    + rewrite confirm_password_eof. discriminate.
    + destruct (str_eqb s original) eqn:Heq.
      * apply str_eqb_eq in Heq. subst s.
        rewrite confirm_password_match. intros H; inversion H; subst.
        exists [], typed. repeat split; auto. simpl. lia.
      * assert (Hne : s <> original).
        { intros ->. rewrite str_eqb_refl in Heq. discriminate. }
        rewrite confirm_password_mismatch by exact Hne.
        intros H. destruct (IH _ _ _ _ H) as (wrong & rest & Hw & Hw' & Hr).
        exists (s :: wrong), rest.
        split; [constructor; assumption|]. split; [exact Hw'|].
        destruct r as [confirmed|].
        -- destruct Hr as (Hc & Hlen & Ht). subst typed.
           repeat split; auto. simpl. lia.
        -- destruct Hr as (Hlen & Ht). subst typed.
           split; [simpl; lia | reflexivity].
    + rewrite confirm_password_interrupt. discriminate.
Qed.

(* ================================================================== *)
(** ** Where the code departs from the specification *)
(* ================================================================== *)

(** Two passwords for which [generate_testclient_hash] returns no hash
    to verify.  One of 75 characters, 75 bytes in UTF-8: bcrypt turns it
    down and the function raises [ValueError].  One that is a lone
    surrogate, which UTF-8 cannot encode: the function raises
    [UnicodeEncodeError] before bcrypt is called. *)
Lemma generate_testclient_hash_no_hash_counterexample :
  (well_formed (repeat 97%N 75) = true
   /\ generate_testclient_hash Demo.env0 (repeat 97%N 75)
        (Demo.connected Demo.table [])
      = (Raise ValueError, set_rand_calls (Demo.connected Demo.table []) 1)
   /\ ~ (exists hashed w',
           generate_testclient_hash Demo.env0 (repeat 97%N 75)
             (Demo.connected Demo.table [])
           = (Ok hashed, w')))
  /\ (generate_testclient_hash Demo.env0 [55296%N]
        (Demo.connected Demo.table [])
      = (Raise UnicodeEncodeError, Demo.connected Demo.table [])
      /\ ~ (exists hashed w',
              generate_testclient_hash Demo.env0 [55296%N]
                (Demo.connected Demo.table [])
              = (Ok hashed, w'))).
Proof.
  split.
  - split; [reflexivity|]. split; [reflexivity|].
    intros (hashed & w' & H). vm_compute in H. discriminate H.
  - split; [reflexivity|].
    intros (hashed & w' & H). vm_compute in H. discriminate H.
Qed.


(* ================================================================== *)
(** ** The further properties on concrete runs *)
(* ================================================================== *)

Local Open Scope string_scope.

Lemma connect_database_default_password_witness :
  nth_error
    (connects
       (snd (connect_database Demo.env0 (lit "localhost") 5432
               (lit "psforever") (lit "psforever") None
               (Demo.start Demo.table []))))
    0
  = Some (Build_conn_params (lit "localhost") 5432 (lit "psforever")
            (lit "psforever") (lit "psforever")).
Proof.
  apply (connect_database_default_password Demo.env0 (lit "localhost") 5432
           (lit "psforever") (lit "psforever") None
           (Demo.start Demo.table [])
           (snd (connect_database Demo.env0 (lit "localhost") 5432
                   (lit "psforever") (lit "psforever") None
                   (Demo.start Demo.table [])))
           (fst (connect_database Demo.env0 (lit "localhost") 5432
                   (lit "psforever") (lit "psforever") None
                   (Demo.start Demo.table [])))).
  apply surjective_pairing.
Defined.

Lemma connect_database_fatal_at_once_witness :
  connect_attempts (Demo.env_with Demo.down Demo.no_fault) 3
    (lit "localhost") 5432 (lit "psforever") (lit "psforever")
    (lit "psforever") (Demo.start Demo.table (Demo.lines ["bob"]))
  = (Raise (SystemExit 1),
     set_connects (Demo.start Demo.table (Demo.lines ["bob"]))
       [Build_conn_params (lit "localhost") 5432 (lit "psforever")
          (lit "psforever") (lit "psforever")])
  /\ run (Demo.env_with Demo.down Demo.no_fault) default_args
       (Demo.start Demo.table (Demo.lines ["bob"]))
     = (1%Z,
        set_connects (Demo.start Demo.table (Demo.lines ["bob"]))
          [Build_conn_params (lit "localhost") 5432 (lit "psforever")
             (lit "psforever") (lit "psforever")]).
Proof.
  destruct (connect_database_fatal_at_once
              (Demo.env_with Demo.down Demo.no_fault) 2
              (lit "localhost") 5432 (lit "psforever") (lit "psforever")
              (lit "psforever") (Demo.start Demo.table (Demo.lines ["bob"])))
    as [Hloop Hrun].
  - right. eexists. split; reflexivity.
  - split; [exact Hloop|].
    apply (Hrun default_args); reflexivity.
Defined.

Lemma connect_database_password_retry_witness :
  nth_error
    (connects
       (snd (connect_attempts Demo.env0 3 (lit "localhost") 5432
               (lit "psforever") (lit "psforever") (lit "guess")
               (Demo.start Demo.table (Demo.lines [" hunter2 "])))))
    1
  = Some (Build_conn_params (lit "localhost") 5432 (lit "psforever")
            (lit " hunter2 ") (lit "psforever")).
Proof.
  apply (proj2 (connect_database_password_retry Demo.env0 1
                  (lit "localhost") 5432 (lit "psforever") (lit "psforever")
                  (lit "guess")
                  (Demo.start Demo.table (Demo.lines [" hunter2 "]))
                  (lit "FATAL:  password authentication failed")
                  (lit " hunter2 ") [] eq_refl eq_refl eq_refl)
           _ _ (surjective_pairing _)).
Defined.

Lemma connect_database_unknown_error_retry_witness :
  nth_error
    (connects
       (snd (connect_attempts (Demo.env_with Demo.dropping Demo.no_fault) 3
               (lit "localhost") 5432 (lit "psforever") (lit "psforever")
               (lit "psforever")
               (Demo.start Demo.table (Demo.lines ["bob"])))))
    1
  = Some (Build_conn_params (lit "localhost") 5432 (lit "psforever")
            (lit "psforever") (lit "psforever")).
Proof.
  apply (proj2 (connect_database_unknown_error_retry
                  (Demo.env_with Demo.dropping Demo.no_fault) 1
                  (lit "localhost") 5432 (lit "psforever") (lit "psforever")
                  (lit "psforever")
                  (Demo.start Demo.table (Demo.lines ["bob"]))
                  (lit "server closed the connection unexpectedly")
                  eq_refl eq_refl)
           _ _ (surjective_pairing _)).
Defined.

Lemma connect_database_returns_connected_witness :
  conn_open
    (snd (connect_database Demo.env0 (lit "localhost") 5432
            (lit "psforever") (lit "games") (Some (lit "guess"))
            (Demo.start Demo.table (Demo.lines [""; "psforever"]))))
  = true
  /\ List.length
       (connects
          (snd (connect_database Demo.env0 (lit "localhost") 5432
                  (lit "psforever") (lit "games") (Some (lit "guess"))
                  (Demo.start Demo.table (Demo.lines [""; "psforever"])))))
     = 3%nat.
Proof.
  destruct (connect_database_returns_connected Demo.env0 (lit "localhost")
              5432 (lit "psforever") (lit "games") (Some (lit "guess"))
              (Demo.start Demo.table (Demo.lines [""; "psforever"]))
              (snd (connect_database Demo.env0 (lit "localhost") 5432
                      (lit "psforever") (lit "games") (Some (lit "guess"))
                      (Demo.start Demo.table (Demo.lines [""; "psforever"]))))
              eq_refl)
    as (_ & Hopen & _).
  split; [exact Hopen | reflexivity].
Defined.

Lemma run_exit_status_witness :
  (fst (run (Demo.env_with Demo.server (Demo.half_write 1)) default_args
          (Demo.start Demo.table
             (Demo.lines ["bob"; "secret1"; "secret1"; ""]))) = 0%Z
   \/ fst (run (Demo.env_with Demo.server (Demo.half_write 1)) default_args
             (Demo.start Demo.table
                (Demo.lines ["bob"; "secret1"; "secret1"; ""]))) = 1%Z)
  /\ accounts
       (snd (run (Demo.env_with Demo.server (Demo.half_write 1)) default_args
               (Demo.start Demo.table
                  (Demo.lines ["bob"; "secret1"; "secret1"; ""]))))
     = Demo.table.
Proof.
  destruct (run_exit_status (Demo.env_with Demo.server (Demo.half_write 1))
              default_args
              (Demo.start Demo.table
                 (Demo.lines ["bob"; "secret1"; "secret1"; ""]))
              _ _ (surjective_pairing _))
    as (Hcode & Hone & _).
  split; [exact Hcode|].
  apply Hone. reflexivity.
Defined.

Lemma main_releases_connection_witness :
  (conn_open
     (snd (main Demo.env0 default_args
             (Demo.start Demo.table (Demo.lines ["bob"] ++ [CtrlC])%list)))
   = false
   /\ session
        (snd (main Demo.env0 default_args
                (Demo.start Demo.table (Demo.lines ["bob"] ++ [CtrlC])%list)))
      = accounts
          (snd (main Demo.env0 default_args
                  (Demo.start Demo.table
                     (Demo.lines ["bob"] ++ [CtrlC])%list))))
  /\ conn_open
       (snd (main (Demo.env_with Demo.down Demo.no_fault) default_args
               (Demo.start Demo.table (Demo.lines ["bob"]))))
     = false.
Proof.
  split.
  - exact (main_releases_connection Demo.env0 default_args
             (Demo.start Demo.table (Demo.lines ["bob"] ++ [CtrlC])%list)
             _ _ (surjective_pairing _)).
  - exact (main_releases_connection
             (Demo.env_with Demo.down Demo.no_fault) default_args
             (Demo.start Demo.table (Demo.lines ["bob"]))
             _ _ (surjective_pairing _)).
Defined.

Lemma blank_usernames_are_skipped_witness :
  while_true (ask_username Demo.env0)
    (Demo.connected Demo.table (Demo.lines [""; "   "; "bob"]))
  = while_true (ask_username Demo.env0)
      (Demo.connected Demo.table (Demo.lines ["bob"])).
Proof.
  apply (blank_usernames_are_skipped Demo.env0 [lit ""; lit "   "]
           (Demo.lines ["bob"]) (Demo.connected Demo.table [])).
  repeat constructor.
Defined.

Lemma unknown_username_retry_or_abort_witness :
  while_true (ask_username Demo.env0)
    (Demo.connected Demo.table (Demo.lines ["carol"; " No"; "bob"]))
  = (Raise (SystemExit 0),
     set_db_ops (Demo.connected Demo.table (Demo.lines ["bob"])) 1)
  /\ while_true (ask_username Demo.env0)
       (Demo.connected Demo.table (Demo.lines ["carol"; ""; "bob"]))
     = while_true (ask_username Demo.env0)
         (set_db_ops (Demo.connected Demo.table (Demo.lines ["bob"])) 1).
Proof.
  split.
  - exact (unknown_username_retry_or_abort Demo.env0 (lit "carol")
             (lit " No") (Demo.lines ["bob"]) (Demo.connected Demo.table [])
             eq_refl eq_refl eq_refl).
  - exact (unknown_username_retry_or_abort Demo.env0 (lit "carol")
             (lit "") (Demo.lines ["bob"]) (Demo.connected Demo.table [])
             eq_refl eq_refl eq_refl).
Defined.

Lemma update_password_unknown_id_witness :
  exists w',
    update_password Demo.env0 99 (blit "new-launcher") (blit "new-test")
      (Demo.connected Demo.table [])
    = (Ok true, w')
    /\ accounts w' = Demo.table.
Proof.
  destruct (update_password_unknown_id Demo.env0 99 (blit "new-launcher")
              (blit "new-test") (Demo.connected Demo.table [])
              (lit "new-launcher") (lit "new-test")
              eq_refl eq_refl eq_refl eq_refl)
    as (w' & Hrun & Hacc & _).
  - intros r [<-|[<-|[<-|[]]]]; discriminate.
  - exists w'. split; [exact Hrun | exact Hacc].
Defined.

Lemma update_password_stores_text_witness :
  exists w',
    update_password Demo.env0 12 (blit "new-launcher") (blit "new-test")
      (Demo.connected Demo.table [])
    = (Ok true, w')
    /\ forall row,
         In row (accounts w') -> id row = 12%Z ->
         password row = lit "new-launcher" /\ passhash row = lit "new-test".
Proof.
  destruct (update_password_stores_text Demo.env0 12 (lit "new-launcher")
              (lit "new-test") (blit "new-launcher") (blit "new-test")
              (Demo.connected Demo.table [])
              eq_refl eq_refl eq_refl eq_refl)
    as (w' & Hrun & _ & Hrows).
  exists w'. split; [exact Hrun | exact Hrows].
Defined.

Lemma run_touches_only_hashes_witness :
  Permutation
    (map identity_columns
       (accounts
          (snd (run Demo.env0 default_args
                  (Demo.start Demo.table
                     (Demo.lines ["bob"; "secret1"; "secret1"; ""]))))))
    (map identity_columns Demo.table).
Proof.
  exact (proj1 (run_touches_only_hashes Demo.env0 default_args
                  (Demo.start Demo.table
                     (Demo.lines ["bob"; "secret1"; "secret1"; ""]))
                  _ _ (surjective_pairing _))).
Defined.

Lemma hash_functions_encode_error_witness :
  generate_testclient_hash Demo.env0 (lit "secret" ++ [55296%N])%list
    (Demo.connected Demo.table [])
  = (Raise UnicodeEncodeError, Demo.connected Demo.table [])
  /\ generate_launcher_hash Demo.env0 (lit "Bob")
       (lit "secret" ++ [55296%N])%list (Demo.connected Demo.table [])
     = (Raise UnicodeEncodeError, Demo.connected Demo.table []).
Proof.
  destruct (hash_functions_encode_error Demo.env0 (lit "Bob")
              (lit "secret" ++ [55296%N])%list
              (Demo.connected Demo.table [])) as [Ht Hl].
  split; [apply Ht | apply Hl]; reflexivity.
Defined.

Lemma get_password_input_never_short_witness :
  ((6 <= List.length (lit "secret1"))%nat
   /\ In (Line (lit "secret1")) (Demo.lines ["abc"; "secret1"; "x"]))
  /\ get_password_input 6
       (Demo.connected Demo.table (Demo.lines ["abc"; "12345"]))
     = (Raise EOFError, Demo.connected Demo.table []).
Proof.
  destruct (get_password_input_never_short 6) as [Hsound Hshort].
  split.
  - apply (Hsound (Demo.lines ["abc"; "secret1"; "x"])
             (Demo.connected Demo.table [])
             (Demo.connected Demo.table (Demo.lines ["x"]))).
    reflexivity.
  - apply (Hshort [lit "abc"; lit "12345"] (Demo.connected Demo.table [])).
    repeat constructor; simpl; lia.
Defined.

Lemma run_without_input_witness :
  exists w',
    run Demo.env0 default_args (Demo.start Demo.table []) = (1%Z, w')
    /\ accounts w' = Demo.table /\ audit w' = [].
Proof.
  apply (run_without_input Demo.env0 default_args (Demo.start Demo.table [])).
  reflexivity.
Defined.

Lemma successful_reset_witness :
  exists w',
    run Demo.env0 default_args
      (Demo.start Demo.table (Demo.lines ["bob"; "secret1"; "secret1"; ""]))
    = (0%Z, w')
    /\ audit w' = [audit_record Demo.env0 12 (lit "Bob")]
    /\ conn_open w' = false.
Proof.
  edestruct (successful_reset Demo.env0 default_args
               (Demo.start Demo.table
                  (Demo.lines ["bob"; "secret1"; "secret1"; ""]))
               (lit "bob") (lit "secret1") (lit "") [] Demo.bob)
    as (w' & Hrun & _ & Haud & _ & Hclosed & _).
  - reflexivity.
  - reflexivity.
  - reflexivity.
  - reflexivity.
  - simpl; lia.
  - reflexivity.
  - reflexivity.
  - reflexivity.
  - reflexivity.
  - reflexivity.
  - reflexivity.
  - reflexivity.
  - reflexivity.
  - reflexivity.
  - reflexivity.
  - exists w'. split; [exact Hrun|]. split; [exact Haud | exact Hclosed].
Defined.

Lemma lookup_failure_is_fatal_witness :
  exists w',
    run (Demo.env_with Demo.server (Demo.half_write 0)) default_args
      (Demo.start Demo.table (Demo.lines ["bob"; "secret1"]))
    = (1%Z, w')
    /\ accounts w' = Demo.table
    /\ session w' = Demo.table
    /\ audit w' = []
    /\ conn_open w' = false.
Proof.
  eapply (lookup_failure_is_fatal
            (Demo.env_with Demo.server (Demo.half_write 0)) default_args
            (Demo.start Demo.table (Demo.lines ["bob"; "secret1"]))
            _ (lit "bob") (Demo.lines ["secret1"])).
  - reflexivity.
  - reflexivity.
  - reflexivity.
  - reflexivity.
Defined.

Lemma committed_password_is_long_enough_witness :
  exists row p,
    In row Demo.table
    /\ (6 <= List.length p)%nat
    /\ reset_done Demo.env0
         (Demo.start Demo.table
            (Demo.lines ["bob"; "secret1"; "secret1"; ""]))
         (snd (run Demo.env0 default_args
                 (Demo.start Demo.table
                    (Demo.lines ["bob"; "secret1"; "secret1"; ""]))))
         row p.
Proof.
  apply (committed_password_is_long_enough Demo.env0 default_args
           (Demo.start Demo.table
              (Demo.lines ["bob"; "secret1"; "secret1"; ""]))
           _ _ (surjective_pairing _)).
  intros H. vm_compute in H. discriminate H.
Defined.

Lemma confirm_password_outcome_witness :
  exists wrong rest,
    Forall (fun s => s <> lit "secret1") wrong
    /\ Demo.connected Demo.table (Demo.lines ["z"])
       = set_stdin (Demo.connected Demo.table []) rest
    /\ lit "secret1" = lit "secret1"
    /\ (List.length wrong < 3)%nat
    /\ Demo.lines ["a"; "secret1"; "z"]
       = (map Line wrong ++ Line (lit "secret1") :: rest)%list.
Proof.
  exact (confirm_password_outcome (lit "secret1") 3
           (Demo.lines ["a"; "secret1"; "z"])
           (Demo.connected Demo.table [])
           (Demo.connected Demo.table (Demo.lines ["z"]))
           (Some (lit "secret1")) eq_refl).
Defined.
